(** * A request gatekeeper: per-client rate limiting with a durable ban list

    Shallow embedding of [server.js]: the identity resolver [getRealIP], the
    ban store ([loadBannedIPs], [saveBannedIPs], [banIP], the unban route),
    the admission middleware and the periodic cleanup, followed by the
    properties the specification states about them.

    Conventions of the embedding.
    - JavaScript numbers that the program manipulates (request counts,
      [Date.now()] readings) are integers far below 2^53, where doubles are
      exact: they are values of [Z].
    - Header values and addresses are strings of 8-bit characters, as Node
      decodes header bytes (latin1).
    - [requestTracker], a [Map], is a [gmap]; [bannedIPs], a [Set], is the
      list of its members in insertion order (the order [Array.from] reads
      them in), compared with [SameValueZero].
    - The process state (the two collections, the disk, the console) is
      threaded through a state-and-exception monad [js]. *)

From stdpp Require Import base option list gmap strings.
From Stdlib Require Import ZArith Lia Ascii String.

Local Open Scope Z_scope.
Local Open Scope string_scope.

(** ** JavaScript values *)

(** What [JSON.parse] can return. Numbers are the integers; an object is
    the list of its properties, each key once. *)
#[local] Unset Elimination Schemes.
Inductive json : Type :=
  | JNull
  | JBool (b : bool)
  | JNum (n : Z)
  | JStr (s : string)
  | JArr (elems : list json)
  | JObj (props : list (string * json)).
#[local] Set Elimination Schemes.

(** A run-time value held in [bannedIPs]: a parsed JSON value or
    [undefined]. *)
Inductive jsval : Type :=
  | Undefined
  | Json (j : json).

(** What [getRealIP] can return: a string or [undefined]. *)
Inductive ident : Type :=
  | IStr (s : string)
  | IUndefined.

Definition ident_val (ip : ident) : jsval :=
  match ip with
  | IStr s => Json (JStr s)
  | IUndefined => Undefined
  end.

Definition ident_to_option (ip : ident) : option string :=
  match ip with IStr s => Some s | IUndefined => None end.

Definition ident_of_option (o : option string) : ident :=
  match o with Some s => IStr s | None => IUndefined end.

#[global] Instance ident_eq_dec : EqDecision ident.
Proof. solve_decision. Defined.

#[global] Instance ident_countable : Countable ident.
Proof.
  apply (inj_countable' ident_to_option ident_of_option).
  by intros [].
Defined.

(** Exceptions the modelled code can raise. *)
Inductive exn : Type :=
  | SyntaxError   (* JSON.parse on text that is not JSON *)
  | TypeError     (* property of null, non-iterable given to new Set *)
  | IOError.      (* readFileSync / writeFileSync failure *)

Inductive outcome (A : Type) : Type :=
  | Return (a : A)
  | Throw (e : exn).
Arguments Return {A} a.
Arguments Throw {A} e.

(** JavaScript truthiness of an optional string ([undefined] and the empty string are
    falsy). *)
Definition truthy_str (h : option string) : bool :=
  match h with
  | Some s => negb (String.eqb s EmptyString)
  | None => false
  end.

(** ** String helpers: [split(',')] and [trim()] *)

Fixpoint split_comma (s : string) : list string :=
  match s with
  | EmptyString => [EmptyString]
  | String c r =>
      if Ascii.eqb c ","%char then EmptyString :: split_comma r
      else match split_comma r with
           | h :: t => String c h :: t
           | [] => [String c EmptyString]
           end
  end.

(** Code units below 256 that [String.prototype.trim] strips: TAB, LF, VT,
    FF, CR, SPACE and NBSP. *)
Definition is_ws (c : ascii) : bool :=
  let n := nat_of_ascii c in
  (Nat.leb 9 n && Nat.leb n 13) || Nat.eqb n 32 || Nat.eqb n 160.

Fixpoint trim_start (s : string) : string :=
  match s with
  | EmptyString => EmptyString
  | String c r => if is_ws c then trim_start r else s
  end.

Fixpoint trim_end (s : string) : string :=
  match s with
  | EmptyString => EmptyString
  | String c r =>
      match trim_end r with
      | EmptyString => if is_ws c then EmptyString else String c EmptyString
      | r' => String c r'
      end
  end.

Definition trim (s : string) : string := trim_end (trim_start s).

(** ** Requests and the identity resolver *)

(** The parts of an incoming request the program reads. A header is a string
    or absent; so is a socket's [remoteAddress] (absent once the socket is
    destroyed). *)
Record request : Type := {
  x_forwarded_for : option string;
  x_real_ip : option string;
  cf_connecting_ip : option string;
  socket_remoteAddress : option string;
  connection_remoteAddress : option string
}.

(** [e1 || e2] on optional strings. *)
Definition or_str (a b : option string) : option string :=
  if truthy_str a then a else b.

(** [arr[0].trim()]: a method call on [undefined] raises [TypeError]. *)
Definition first_trimmed (arr : list string) : outcome ident :=
  match arr !! 0%nat with
  | Some e => Return (IStr (trim e))
  | None => Throw TypeError
  end.

(** The value of a header when it passes an [if (h)] test. *)
Definition if_truthy (h : option string) : option string :=
  if truthy_str h then h else None.

Definition getRealIP (req : request) : outcome ident :=
  let forwarded := x_forwarded_for req in
  let realIP := x_real_ip req in
  let cfConnectingIP := cf_connecting_ip req in
  match if_truthy cfConnectingIP with
  | Some v => Return (IStr v)
  | None =>
  match if_truthy realIP with
  | Some v => Return (IStr v)
  | None =>
  match if_truthy forwarded with
  | Some f => first_trimmed (split_comma f)
  | None =>
      Return (ident_of_option
                (or_str (socket_remoteAddress req)
                        (connection_remoteAddress req)))
  end end end.

(** ** Configuration *)

Definition REQUEST_LIMIT : Z := 50.
Definition TIME_WINDOW : Z := 60000.
(** [REQUEST_LIMIT * 0.8], which the double arithmetic rounds to 40. *)
Definition ALERT_LEVEL : Z := 40.
(** The literal [300000] of the cleanup timer. *)
Definition STALE_AFTER : Z := 300000.

(** ** The process state *)

(** The object stored per identity in [requestTracker]. *)
Record tracker_entry : Type := {
  count : Z;
  firstRequest : Z;
  lastRequest : Z
}.

(** The text of [banned_ips.json]: a JSON document, identified with the value
    [JSON.parse] reads from it, or text that [JSON.parse] rejects. *)
Inductive file_text : Type :=
  | JsonText (doc : json)
  | Garbage (raw : string).

(** The disk as the program sees it: the ban-list file (absent or holding
    some text), whether reads and writes of it succeed, and how many times
    [fs.writeFileSync] has been called. *)
Record filesystem : Type := {
  fs_file : option file_text;
  fs_readable : bool;
  fs_writable : bool;
  fs_write_calls : nat
}.

(** Lines written with [console.log] and [console.error]. *)
Inductive log_line : Type :=
  | LogLoaded (n : nat)
  | LogCreated
  | LogLoadFailed (e : exn)
  | LogSaved (n : nat)
  | LogSaveFailed (e : exn)
  | LogBanned (ip : ident) (total : nat)
  | LogBlocked (ip : ident)
  | LogWarning (ip : ident) (n : Z)
  | LogAlert (ip : ident) (n : Z)
  | LogCleanup (tracking banned : nat).

Record state : Type := {
  requestTracker : gmap ident tracker_entry;
  bannedIPs : list jsval;
  disk : filesystem;
  console : list log_line
}.

(** The state after the module's top-level [let] declarations. *)
Definition initial_state (d : filesystem) : state :=
  {| requestTracker := ∅; bannedIPs := []; disk := d; console := [] |}.

(** ** [Set] operations *)

(** [SameValueZero]: primitives compare by value; an array or object parsed
    from the file is a fresh reference, equal to no value the program can
    look up. *)
Definition same_value_zero (a b : jsval) : bool :=
  match a, b with
  | Undefined, Undefined => true
  | Json JNull, Json JNull => true
  | Json (JBool x), Json (JBool y) => Bool.eqb x y
  | Json (JNum x), Json (JNum y) => Z.eqb x y
  | Json (JStr x), Json (JStr y) => String.eqb x y
  | _, _ => false
  end.

Definition Set_has (x : jsval) (s : list jsval) : bool :=
  existsb (same_value_zero x) s.

Definition Set_add (x : jsval) (s : list jsval) : list jsval :=
  if Set_has x s then s else s ++ [x].

Definition Set_delete (x : jsval) (s : list jsval) : list jsval :=
  List.filter (fun y => negb (same_value_zero x y)) s.

(** [new Set(arr)] on the elements of an array. *)
Definition Set_of_list (l : list jsval) : list jsval :=
  fold_left (fun s x => Set_add x s) l [].

(** ** Reading and writing the persisted record *)

Definition JSON_parse (t : file_text) : outcome json :=
  match t with
  | JsonText doc => Return doc
  | Garbage _ => Throw SyntaxError
  end.

Fixpoint assoc (k : string) (props : list (string * json)) : option json :=
  match props with
  | [] => None
  | (k', v) :: rest => if String.eqb k k' then Some v else assoc k rest
  end.

(** [banned.ips]: reading a property of [null] raises; values other than
    objects have no such property. *)
Definition get_ips (banned : json) : outcome jsval :=
  match banned with
  | JNull => Throw TypeError
  | JObj props =>
      Return (match assoc "ips" props with
              | Some v => Json v
              | None => Undefined
              end)
  | _ => Return Undefined
  end.

Definition truthy (v : jsval) : bool :=
  match v with
  | Undefined => false
  | Json JNull => false
  | Json (JBool b) => b
  | Json (JNum n) => negb (Z.eqb n 0)
  | Json (JStr s) => negb (String.eqb s EmptyString)
  | Json (JArr _) => true
  | Json (JObj _) => true
  end.

(** [v || []]. *)
Definition or_empty_array (v : jsval) : jsval :=
  if truthy v then v else Json (JArr []).

(** [new Set(v)]: an array yields its elements, a string its characters,
    [undefined] and [null] nothing; anything else is not iterable. *)
Definition new_Set (v : jsval) : outcome (list jsval) :=
  match v with
  | Undefined => Return []
  | Json JNull => Return []
  | Json (JArr elems) => Return (Set_of_list (map Json elems))
  | Json (JStr s) =>
      Return (Set_of_list
                (map (fun c => Json (JStr (String c EmptyString)))
                     (list_ascii_of_string s)))
  | Json (JBool _) => Throw TypeError
  | Json (JNum _) => Throw TypeError
  | Json (JObj _) => Throw TypeError
  end.

(** The object literal built in [saveBannedIPs]. *)
Record ban_record : Type := {
  ips : list jsval;
  lastUpdated : string;
  totalBanned : nat
}.

(** [JSON.stringify] writes an [undefined] array element as [null]. *)
Definition json_of_element (v : jsval) : json :=
  match v with
  | Undefined => JNull
  | Json j => j
  end.

Definition JSON_stringify (data : ban_record) : file_text :=
  JsonText (JObj [ ("ips", JArr (map json_of_element (ips data)));
                   ("lastUpdated", JStr (lastUpdated data));
                   ("totalBanned", JNum (Z.of_nat (totalBanned data))) ]).

(** ** The state-and-exception monad *)

Definition js (A : Type) : Type := state → outcome A * state.

#[global] Instance js_ret : MRet js := fun A a st => (Return a, st).

#[global] Instance js_bind : MBind js := fun A B f m st =>
  match m st with
  | (Return a, st') => f a st'
  | (Throw e, st') => (Throw e, st')
  end.

Definition lift {A} (o : outcome A) : js A := fun st => (o, st).

Definition gets {A} (f : state → A) : js A := fun st => (Return (f st), st).

Definition modify (f : state → state) : js unit := fun st => (Return tt, f st).

(** [try { body } catch (error) { handler }]. *)
Definition try_catch {A} (body : js A) (handler : exn → js A) : js A :=
  fun st =>
    match body st with
    | (Return a, st') => (Return a, st')
    | (Throw e, st') => handler e st'
    end.

Definition set_requestTracker (m : gmap ident tracker_entry) (st : state) : state :=
  {| requestTracker := m; bannedIPs := bannedIPs st;
     disk := disk st; console := console st |}.

Definition set_bannedIPs (s : list jsval) (st : state) : state :=
  {| requestTracker := requestTracker st; bannedIPs := s;
     disk := disk st; console := console st |}.

Definition set_disk (d : filesystem) (st : state) : state :=
  {| requestTracker := requestTracker st; bannedIPs := bannedIPs st;
     disk := d; console := console st |}.

Definition log (l : log_line) (st : state) : state :=
  {| requestTracker := requestTracker st; bannedIPs := bannedIPs st;
     disk := disk st; console := (console st ++ [l])%list |}.

Definition console_log (l : log_line) : js unit := modify (log l).

Definition existsSync : js bool :=
  gets (fun st => bool_decide (is_Some (fs_file (disk st)))).

Definition readFileSync : js file_text := fun st =>
  match fs_file (disk st) with
  | Some t => if fs_readable (disk st) then (Return t, st) else (Throw IOError, st)
  | None => (Throw IOError, st)
  end.

(** [fs.writeFileSync]: replaces the whole file, or raises and leaves it as
    it was. *)
Definition writeFileSync (t : file_text) : js unit := fun st =>
  let d := disk st in
  if fs_writable d then
    (Return tt,
     set_disk {| fs_file := Some t; fs_readable := fs_readable d;
                 fs_writable := fs_writable d;
                 fs_write_calls := S (fs_write_calls d) |} st)
  else
    (Throw IOError,
     set_disk {| fs_file := fs_file d; fs_readable := fs_readable d;
                 fs_writable := fs_writable d;
                 fs_write_calls := S (fs_write_calls d) |} st).

(** ** The ban store *)

(** [iso] is the reading [new Date().toISOString()] gives at the call. *)
Definition saveBannedIPs (iso : string) : js unit :=
  try_catch
    (s ← gets bannedIPs;
     let data := {| ips := s; lastUpdated := iso; totalBanned := List.length s |} in
     writeFileSync (JSON_stringify data);;
     console_log (LogSaved (List.length s)))
    (fun error => console_log (LogSaveFailed error)).

Definition loadBannedIPs (iso : string) : js unit :=
  try_catch
    (present ← existsSync;
     if (present : bool) then
       data ← readFileSync;
       banned ← lift (JSON_parse data);
       field ← lift (get_ips banned);
       s ← lift (new_Set (or_empty_array field));
       modify (set_bannedIPs s);;
       console_log (LogLoaded (List.length s))
     else
       saveBannedIPs iso;;
       console_log LogCreated)
    (fun error =>
       console_log (LogLoadFailed error);;
       modify (set_bannedIPs [])).

Definition banIP (ip : ident) (iso : string) : js unit :=
  banned ← gets (fun st => Set_has (ident_val ip) (bannedIPs st));
  if (banned : bool) then mret tt
  else
    modify (fun st => set_bannedIPs (Set_add (ident_val ip) (bannedIPs st)) st);;
    saveBannedIPs iso;;
    total ← gets (fun st => List.length (bannedIPs st));
    console_log (LogBanned ip total).

(** The body of the [/admin/unban/:ip] route; a route parameter is always a
    string. *)
Record unban_response : Type := { success : bool; message : string }.

Definition admin_unban (ipToUnban : string) (iso : string) : js unban_response :=
  banned ← gets (fun st => Set_has (Json (JStr ipToUnban)) (bannedIPs st));
  if (banned : bool) then
    modify (fun st =>
      set_bannedIPs (Set_delete (Json (JStr ipToUnban)) (bannedIPs st)) st);;
    saveBannedIPs iso;;
    mret {| success := true;
            message := "IP " ++ ipToUnban ++ " has been unbanned" |}
  else
    mret {| success := false;
            message := "IP " ++ ipToUnban ++ " is not banned" |}.

(** ** The admission middleware *)

(** How the middleware leaves the request: [req.socket.destroy()] and
    return, or [next()]. *)
Inductive disposition : Type :=
  | SocketDestroyed
  | NextCalled.

Definition store_entry (ip : ident) (tracker : tracker_entry) (st : state) : state :=
  set_requestTracker (<[ip := tracker]> (requestTracker st)) st.

(** [now] is the reading of [Date.now()]; [iso] the later reading a save
    would stamp the file with. The entry object is updated field by field
    as the source does and is held in the map throughout. *)
Definition admission (req : request) (now : Z) (iso : string) : js disposition :=
  ip ← lift (getRealIP req);
  banned ← gets (fun st => Set_has (ident_val ip) (bannedIPs st));
  if (banned : bool) then
    console_log (LogBlocked ip);;
    mret SocketDestroyed
  else
    known ← gets (fun st => requestTracker st !! ip);
    match known with
    | None =>
        modify (store_entry ip
                  {| count := 1; firstRequest := now; lastRequest := now |});;
        mret NextCalled
    | Some tracker =>
        let tracker :=
          if now - firstRequest tracker >? TIME_WINDOW then
            {| count := 1; firstRequest := now;
               lastRequest := lastRequest tracker |}
          else
            {| count := count tracker + 1;
               firstRequest := firstRequest tracker;
               lastRequest := lastRequest tracker |} in
        let tracker :=
          {| count := count tracker; firstRequest := firstRequest tracker;
             lastRequest := now |} in
        modify (store_entry ip tracker);;
        if count tracker >? REQUEST_LIMIT then
          console_log (LogWarning ip (count tracker));;
          banIP ip iso;;
          mret SocketDestroyed
        else
          (if count tracker >? ALERT_LEVEL
           then console_log (LogAlert ip (count tracker))
           else mret tt);;
          mret NextCalled
    end.

(** ** The cleanup timer *)

(** The loop over [requestTracker.entries()]: each entry is visited once and
    deleted from the map when the test holds. *)
Definition sweep (now : Z) (banned : list jsval)
    (m : gmap ident tracker_entry) : gmap ident tracker_entry :=
  map_fold
    (fun ip tracker acc =>
       if (now - lastRequest tracker >? STALE_AFTER)
          && negb (Set_has (ident_val ip) banned)
       then delete ip acc else acc)
    m m.

Definition cleanup (now : Z) : js unit :=
  modify (fun st =>
    set_requestTracker (sweep now (bannedIPs st) (requestTracker st)) st);;
  tracking ← gets (fun st => size (requestTracker st));
  total ← gets (fun st => List.length (bannedIPs st));
  console_log (LogCleanup tracking total).

(** ** Running several requests *)

(** One incoming request with the clock readings taken while it is
    handled. *)
Record arrival : Type := {
  arr_req : request;
  arr_now : Z;
  arr_iso : string
}.

Fixpoint serve (arrivals : list arrival) : js (list disposition) :=
  match arrivals with
  | [] => mret []
  | a :: rest =>
      d ← admission (arr_req a) (arr_now a) (arr_iso a);
      ds ← serve rest;
      mret (d :: ds)
  end.

(** ** The routes behind the middleware *)

(** The body of [/api/status]. *)
Record status_body : Type := {
  sb_ip : ident;
  sb_requests : Z;
  sb_limit : Z;
  sb_remaining : Z;
  sb_banned : bool
}.

Definition api_status (req : request) : js status_body :=
  ip ← lift (getRealIP req);
  tracker ← gets (fun st => requestTracker st !! ip);
  banned ← gets (fun st => Set_has (ident_val ip) (bannedIPs st));
  mret {| sb_ip := ip;
          sb_requests := match tracker with
                         | Some t => count t
                         | None => 0
                         end;
          sb_limit := REQUEST_LIMIT;
          sb_remaining := match tracker with
                          | Some t => Z.max 0 (REQUEST_LIMIT - count t)
                          | None => REQUEST_LIMIT
                          end;
          sb_banned := banned |}.

(** The body of [/admin/banned]; [res.json] serialises the members as
    [JSON.stringify] does. *)
Record banned_body : Type := {
  bb_totalBanned : nat;
  bb_bannedIPs : list json;
  bb_activeTracking : nat
}.

Definition admin_banned : js banned_body :=
  s ← gets bannedIPs;
  m ← gets requestTracker;
  mret {| bb_totalBanned := List.length s;
          bb_bannedIPs := map json_of_element s;
          bb_activeTracking := size m |}.

(** The handler a request is routed to once the middleware has called
    [next()]; [Unmatched] is the final 404 handler. *)
Inductive route : Type :=
  | ApiStatus
  | AdminBanned
  | AdminUnban (ip : string)
  | Unmatched.

(** What the client gets: nothing (the socket was destroyed), or the body
    of the route. *)
Inductive response : Type :=
  | NoResponse
  | StatusJson (b : status_body)
  | BannedJson (b : banned_body)
  | UnbanJson (b : unban_response)
  | NotFound.

(** The application chain for one request: the middleware first, then the
    route. [iso] stamps a save made by the middleware, [iso'] one made by
    the route. *)
Definition handle (rt : route) (req : request) (now : Z) (iso iso' : string)
    : js response :=
  d ← admission req now iso;
  match d with
  | SocketDestroyed => mret NoResponse
  | NextCalled =>
      match rt with
      | ApiStatus => b ← api_status req; mret (StatusJson b)
      | AdminBanned => b ← admin_banned; mret (BannedJson b)
      | AdminUnban ip => b ← admin_unban ip iso'; mret (UnbanJson b)
      | Unmatched => mret NotFound
      end
  end.

(** ** Requests and timer ticks interleaved *)

(** What the process does over time: a request arrives for some route and
    goes through the whole chain (the middleware, then the route), or the
    cleanup timer fires. *)
Inductive event : Type :=
  | Arrive (rt : route) (a : arrival)
  | Tick (now : Z).

Fixpoint run (events : list event) : js unit :=
  match events with
  | [] => mret tt
  | Arrive rt a :: rest =>
      handle rt (arr_req a) (arr_now a) (arr_iso a) (arr_iso a);; run rest
  | Tick now :: rest => cleanup now;; run rest
  end.

(** A new process: the top-level declarations, then [loadBannedIPs()]. *)
Definition startup (d : filesystem) (iso : string) : outcome unit * state :=
  loadBannedIPs iso (initial_state d).

(** * Vocabulary of the properties and sample states *)

Definition all_ws (s : string) : Prop :=
  forallb is_ws (list_ascii_of_string s) = true.

Definition no_comma (s : string) : Prop :=
  forallb (fun c => negb (Ascii.eqb c ","%char)) (list_ascii_of_string s) = true.

(** [e] is the left-most comma-separated entry of [f]. *)
Definition leftmost_entry (f e : string) : Prop :=
  no_comma e ∧ (f = e ∨ ∃ tail, f = e ++ String ","%char tail).

(** [t] is [e] without its leading and trailing whitespace. *)
Definition trimmed_form (e t : string) : Prop :=
  (∃ l r, e = l ++ t ++ r ∧ all_ws l ∧ all_ws r) ∧
  (∀ c t', t = String c t' → is_ws c = false) ∧
  (∀ c t', t = t' ++ String c EmptyString → is_ws c = false).

(** A header that an [if (h)] test skips: not sent, or sent empty. *)
Definition absent (h : option string) : Prop := h = None ∨ h = Some EmptyString.

Definition both_headers : request :=
  {| x_forwarded_for := Some "1.1.1.1, 2.2.2.2";
     x_real_ip := Some "3.3.3.3";
     cf_connecting_ip := None;
     socket_remoteAddress := Some "10.0.0.7";
     connection_remoteAddress := Some "10.0.0.7" |}.

Definition forwarded_only : request :=
  {| x_forwarded_for := Some "1.1.1.1, 2.2.2.2";
     x_real_ip := None;
     cf_connecting_ip := None;
     socket_remoteAddress := Some "10.0.0.7";
     connection_remoteAddress := Some "10.0.0.7" |}.

(** A request without identity headers whose socket no longer has a peer
    address. *)
Definition no_information : request :=
  {| x_forwarded_for := None;
     x_real_ip := None;
     cf_connecting_ip := None;
     socket_remoteAddress := None;
     connection_remoteAddress := None |}.

(** A list represents a [Set] when no member occurs twice. *)
Fixpoint Set_wf (s : list jsval) : Prop :=
  match s with
  | [] => True
  | x :: rest => Set_has x rest = false ∧ Set_wf rest
  end.

(** How many members of [s] are the value [x]. *)
Definition occurrences (x : jsval) (s : list jsval) : nat :=
  List.length (List.filter (same_value_zero x) s).

Ltac run_js :=
  unfold saveBannedIPs, try_catch, existsSync, readFileSync, writeFileSync,
    console_log, log, lift, gets, modify, set_disk, set_bannedIPs, mbind,
    js_bind, mret, js_ret; simpl.

(** The record [saveBannedIPs] serialises in state [st]. *)
Definition record_of (iso : string) (st : state) : ban_record :=
  {| ips := bannedIPs st; lastUpdated := iso;
     totalBanned := List.length (bannedIPs st) |}.

Definition ban_twice (ip : ident) (iso1 iso2 : string) : js unit :=
  banIP ip iso1;; banIP ip iso2.

(** A state in which ["6.6.6.6"] is already banned and on file. *)
Definition already_banned : state :=
  {| requestTracker := ∅;
     bannedIPs := [Json (JStr "6.6.6.6")];
     disk := {| fs_file := Some (JSON_stringify
                                   {| ips := [Json (JStr "6.6.6.6")];
                                      lastUpdated := "2024-01-01T00:00:00.000Z";
                                      totalBanned := 1 |});
                fs_readable := true; fs_writable := true;
                fs_write_calls := 0 |};
     console := [] |}.

(** Saving in [st], then loading in a freshly started process that finds
    the disk as the save left it. *)
Definition persist_then_load (iso iso' : string) (st : state) : outcome unit * state :=
  let saved := (saveBannedIPs iso st).2 in
  loadBannedIPs iso' (initial_state (disk saved)).

Definition two_bans : state :=
  {| requestTracker := ∅;
     bannedIPs := [Json (JStr "6.6.6.6"); Json (JStr "7.7.7.7")];
     disk := {| fs_file := None; fs_readable := true; fs_writable := true;
                fs_write_calls := 0 |};
     console := [] |}.

(** An arrival that resolves to [ip] no later than [TIME_WINDOW] after
    [t0]. *)
Definition in_window (ip : ident) (t0 : Z) (a : arrival) : Prop :=
  getRealIP (arr_req a) = Return ip ∧ (arr_now a - t0 ≤ TIME_WINDOW)%Z.

Definition from_peer (addr : string) : request :=
  {| x_forwarded_for := None; x_real_ip := None; cf_connecting_ip := None;
     socket_remoteAddress := Some addr;
     connection_remoteAddress := Some addr |}.

Definition quiet_disk : filesystem :=
  {| fs_file := None; fs_readable := true; fs_writable := true;
     fs_write_calls := 0 |}.

Definition hit (addr : string) (t : Z) : arrival :=
  {| arr_req := from_peer addr; arr_now := t; arr_iso := "stamp" |}.

(** A state in which ["6.6.6.6"] is banned and still has the entry that got
    it banned. *)
Definition banned_with_entry : state :=
  {| requestTracker :=
       {[ IStr "6.6.6.6" :=
            {| count := 51; firstRequest := 0; lastRequest := 900 |} ]};
     bannedIPs := [Json (JStr "6.6.6.6")];
     disk := quiet_disk;
     console := [] |}.

(** The test of the cleanup loop, on one entry. *)
Definition evicted (now : Z) (banned : list jsval) (ip : ident)
    (e : tracker_entry) : Prop :=
  STALE_AFTER < now - lastRequest e ∧ Set_has (ident_val ip) banned = false.

(** A tracker with a stale entry of a banned identity, a stale entry of an
    identity that is not banned, and a recent entry. *)
Definition three_entries : state :=
  {| requestTracker :=
       {[ IStr "6.6.6.6" :=
            {| count := 51; firstRequest := 0; lastRequest := 900 |};
          IStr "7.7.7.7" :=
            {| count := 3; firstRequest := 0; lastRequest := 900 |};
          IStr "8.8.8.8" :=
            {| count := 3; firstRequest := 400000; lastRequest := 400000 |} ]};
     bannedIPs := [Json (JStr "6.6.6.6")];
     disk := quiet_disk;
     console := [] |}.

(** Every tracked count is between 1 and one past the limit, and a count
    past the limit belongs to a banned identity. *)
Definition counts_ok (st : state) : Prop :=
  ∀ ip e, requestTracker st !! ip = Some e →
    (1 ≤ count e ≤ REQUEST_LIMIT + 1)%Z ∧
    (REQUEST_LIMIT < count e → Set_has (ident_val ip) (bannedIPs st) = true).

(** Arrivals of [ip], each more than [TIME_WINDOW] after the one before
    (the first more than [TIME_WINDOW] after [t0]). *)
Fixpoint spaced (ip : ident) (t0 : Z) (arrivals : list arrival) : Prop :=
  match arrivals with
  | [] => True
  | a :: rest =>
      getRealIP (arr_req a) = Return ip ∧
      TIME_WINDOW < arr_now a - t0 ∧
      spaced ip (arr_now a) rest
  end.

(** The entry a request at [now] leaves when it continues the window of
    [e]. *)
Definition bumped (e : tracker_entry) (now : Z) : tracker_entry :=
  {| count := count e + 1; firstRequest := firstRequest e;
     lastRequest := now |}.

(** The entry a request at [now] leaves when it opens a window. *)
Definition opened (now : Z) : tracker_entry :=
  {| count := 1; firstRequest := now; lastRequest := now |}.

(** A disk that refuses writes and holds no file. *)
Definition read_only_disk : filesystem :=
  {| fs_file := None; fs_readable := true; fs_writable := false;
     fs_write_calls := 0 |}.

(** The request [req] arriving from another peer. *)
Definition with_peer (a b : option string) (req : request) : request :=
  {| x_forwarded_for := x_forwarded_for req;
     x_real_ip := x_real_ip req;
     cf_connecting_ip := cf_connecting_ip req;
     socket_remoteAddress := a;
     connection_remoteAddress := b |}.

(** Some identity header passes its [if] test. *)
Definition has_identity_header (req : request) : bool :=
  truthy_str (cf_connecting_ip req) || truthy_str (x_real_ip req)
  || truthy_str (x_forwarded_for req).

(** The file holds a JSON object whose [ips] property is an array or a
    non-empty string: the two kinds of value [new Set] reads members
    from. *)
Definition carries_list (t : file_text) : Prop :=
  ∃ props v, t = JsonText (JObj props) ∧ assoc "ips" props = Some v ∧
             ((∃ l, v = JArr l) ∨ (∃ s, v = JStr s ∧ s ≠ EmptyString)).

(** A disk whose file is the JSON object [{ips: "1.2.3.4"}]. *)
Definition string_for_list_disk : filesystem :=
  {| fs_file := Some (JsonText (JObj [ ("ips", JStr "1.2.3.4") ]));
     fs_readable := true; fs_writable := true; fs_write_calls := 0 |}.


(** Every tracked count is at least 1. *)
Definition counts_positive (st : state) : Prop :=
  ∀ ip e, requestTracker st !! ip = Some e → (1 ≤ count e)%Z.

Definition is_unban (ev : event) : bool :=
  match ev with
  | Arrive (AdminUnban _) _ => true
  | _ => false
  end.

(** No request of the run is for the unban route. *)
Definition no_unban (events : list event) : Prop :=
  forallb (fun ev => negb (is_unban ev)) events = true.

(** * Properties *)

(** ** Strings *)

Lemma append_cons (c : ascii) (a b : string) :
  String c a ++ b = String c (a ++ b).
Proof. reflexivity. Qed.

Lemma split_comma_head (f : string) :
  ∃ e rest, split_comma f = e :: rest ∧ leftmost_entry f e.
Proof.
  induction f as [|c r IH]; simpl.
  - exists EmptyString, []. repeat split; auto.
  - destruct (Ascii.eqb_spec c ","%char) as [->|Hc].
    + exists EmptyString, (split_comma r). repeat split; auto.
      right. by exists r.
    + destruct IH as (e & rest & -> & Hno & Hshape).
      exists (String c e), rest. split; [done|]. split.
      * unfold no_comma in *. simpl.
        destruct (Ascii.eqb_spec c ","%char); [done|]. exact Hno.
      * destruct Hshape as [->|[tail ->]]; [by left|].
        right. by exists tail.
Qed.

Lemma trim_start_spec (s : string) :
  (∃ l, s = l ++ trim_start s ∧ all_ws l) ∧
  (∀ c t', trim_start s = String c t' → is_ws c = false).
Proof.
  induction s as [|c r [(l & Hl & Hws) Hhead]]; simpl.
  - split; [by exists EmptyString|]. intros; discriminate.
  - destruct (is_ws c) eqn:Hc.
    + split; [|exact Hhead].
      exists (String c l). split; [rewrite append_cons; f_equal; exact Hl|].
      unfold all_ws in *. simpl. by rewrite Hc.
    + split; [by exists EmptyString|].
      intros c' t' [= <- _]. exact Hc.
Qed.

Lemma trim_end_spec (s : string) :
  (∃ r, s = trim_end s ++ r ∧ all_ws r) ∧
  (∀ c t', trim_end s = t' ++ String c EmptyString → is_ws c = false) ∧
  (∀ c t', s = String c t' → is_ws c = false →
           ∃ t'', trim_end s = String c t'').
Proof.
  induction s as [|c r0 [(r & Hr & Hws) [Hlast _]]]; simpl.
  - split; [by exists EmptyString|]. split; [|intros; discriminate].
    intros c [|? ?]; discriminate.
  - destruct (trim_end r0) as [|a b] eqn:Hte.
    + simpl in Hr. subst r0.
      destruct (is_ws c) eqn:Hc.
      * split; [|split].
        -- exists (String c r). split; [done|].
           unfold all_ws in *. simpl. by rewrite Hc.
        -- intros c' [|? ?]; discriminate.
        -- intros c' t' [= <- _] Hc'. congruence.
      * split; [|split].
        -- by exists r.
        -- intros c' [|x [|? ?]]; simpl; intros [= ]; congruence.
        -- intros c' t' [= <- _] _. by eexists.
    + split; [|split].
      * exists r. split; [|done]. rewrite append_cons. f_equal. exact Hr.
      * intros c' [|x t'']; simpl.
        -- intros [= ].
        -- intros [= <- Heq]. by apply (Hlast c' t'').
      * intros c' t' [= <- _] _. by eexists.
Qed.

Lemma trim_spec (e : string) : trimmed_form e (trim e).
Proof.
  unfold trim, trimmed_form.
  destruct (trim_start_spec e) as [(l & Hl & Hlws) Hhead].
  destruct (trim_end_spec (trim_start e)) as [(r & Hr & Hrws) [Hlast Hkeep]].
  split; [|split].
  - exists l, r. split; [|done]. by rewrite <- Hr.
  - intros c t' Heq.
    destruct (trim_start e) as [|c0 t0] eqn:Hts; [discriminate|].
    destruct (Hkeep c0 t0 eq_refl (Hhead c0 t0 eq_refl)) as [t'' Ht''].
    rewrite Ht'' in Heq. injection Heq as <- _.
    by apply (Hhead c0 t0).
  - exact Hlast.
Qed.

Lemma if_truthy_Some (h : option string) (v : string) :
  if_truthy h = Some v ↔ h = Some v ∧ v ≠ EmptyString.
Proof.
  unfold if_truthy, truthy_str. destruct h as [s|].
  - destruct (String.eqb_spec s EmptyString) as [->|Hne]; simpl.
    + split; [discriminate|]. intros [[= <-] Hv]. by destruct Hv.
    + split; [intros [= <-]; by split|]. by intros [-> _].
  - split; [discriminate|]. by intros [? _].
Qed.

Lemma if_truthy_None (h : option string) : if_truthy h = None ↔ absent h.
Proof.
  unfold if_truthy, truthy_str, absent. destruct h as [s|].
  - destruct (String.eqb_spec s EmptyString) as [->|Hne]; simpl.
    + split; [by right|done].
    + split; [discriminate|]. intros [|[= ]]; [discriminate|]. by destruct Hne.
  - split; [by left|done].
Qed.

(** ** The identity resolver *)

Lemma getRealIP_cf (req : request) (v : string) :
  cf_connecting_ip req = Some v → v ≠ EmptyString →
  getRealIP req = Return (IStr v).
Proof.
  intros Hcf Hv. unfold getRealIP.
  by rewrite (proj2 (if_truthy_Some _ v) (conj Hcf Hv)).
Qed.

Lemma getRealIP_real (req : request) (v : string) :
  absent (cf_connecting_ip req) →
  x_real_ip req = Some v → v ≠ EmptyString →
  getRealIP req = Return (IStr v).
Proof.
  intros Hcf Hreal Hv. unfold getRealIP.
  rewrite (proj2 (if_truthy_None _) Hcf).
  by rewrite (proj2 (if_truthy_Some _ v) (conj Hreal Hv)).
Qed.

Lemma getRealIP_forwarded (req : request) (f : string) :
  absent (cf_connecting_ip req) → absent (x_real_ip req) →
  x_forwarded_for req = Some f → f ≠ EmptyString →
  ∃ e, leftmost_entry f e ∧ trimmed_form e (trim e) ∧
       getRealIP req = Return (IStr (trim e)).
Proof.
  intros Hcf Hreal Hfwd Hf. unfold getRealIP.
  rewrite (proj2 (if_truthy_None _) Hcf), (proj2 (if_truthy_None _) Hreal).
  rewrite (proj2 (if_truthy_Some _ f) (conj Hfwd Hf)).
  destruct (split_comma_head f) as (e & rest & -> & He).
  exists e. split; [done|]. split; [apply trim_spec|done].
Qed.

Lemma getRealIP_peer (req : request) :
  absent (cf_connecting_ip req) → absent (x_real_ip req) →
  absent (x_forwarded_for req) →
  getRealIP req =
    Return (ident_of_option (or_str (socket_remoteAddress req)
                                    (connection_remoteAddress req))).
Proof.
  intros Hcf Hreal Hfwd. unfold getRealIP.
  by rewrite (proj2 (if_truthy_None _) Hcf), (proj2 (if_truthy_None _) Hreal),
             (proj2 (if_truthy_None _) Hfwd).
Qed.

(** C4. The resolver selects by fixed precedence, the first header that is
    present (sent with a non-empty value) winning: [cf-connecting-ip], then
    [x-real-ip], then the left-most comma-separated entry of
    [x-forwarded-for] with its surrounding whitespace removed, then the
    transport peer address. With [x-forwarded-for: 1.1.1.1, 2.2.2.2] and
    [x-real-ip: 3.3.3.3] the identity is ["3.3.3.3"]; with the forwarded-for
    header alone it is ["1.1.1.1"]. *)
Theorem C4_identity_precedence :
  (∀ (req : request),
     (∀ v, cf_connecting_ip req = Some v → v ≠ EmptyString →
           getRealIP req = Return (IStr v)) ∧
     (∀ v, absent (cf_connecting_ip req) →
           x_real_ip req = Some v → v ≠ EmptyString →
           getRealIP req = Return (IStr v)) ∧
     (∀ f, absent (cf_connecting_ip req) → absent (x_real_ip req) →
           x_forwarded_for req = Some f → f ≠ EmptyString →
           ∃ e, leftmost_entry f e ∧ trimmed_form e (trim e) ∧
                getRealIP req = Return (IStr (trim e))) ∧
     (absent (cf_connecting_ip req) → absent (x_real_ip req) →
      absent (x_forwarded_for req) →
      getRealIP req =
        Return (ident_of_option (or_str (socket_remoteAddress req)
                                        (connection_remoteAddress req))))) ∧
  getRealIP both_headers = Return (IStr "3.3.3.3") ∧
  getRealIP forwarded_only = Return (IStr "1.1.1.1").
Proof.
  split; [|split; reflexivity].
  intros req. split; [|split; [|split]].
  - apply getRealIP_cf.
  - apply getRealIP_real.
  - apply getRealIP_forwarded.
  - apply getRealIP_peer.
Qed.

(** The precedence theorem applied to the two requests of the
    specification. *)
Lemma C4_identity_precedence_witness :
  getRealIP both_headers = Return (IStr "3.3.3.3") ∧
  (∃ e, leftmost_entry "1.1.1.1, 2.2.2.2" e ∧
        getRealIP forwarded_only = Return (IStr (trim e))).
Proof.
  destruct C4_identity_precedence as [Hall _].
  destruct (Hall both_headers) as (_ & Hreal & _).
  destruct (Hall forwarded_only) as (_ & _ & Hfwd & _).
  split.
  - apply Hreal; [by left|reflexivity|discriminate].
  - destruct (Hfwd "1.1.1.1, 2.2.2.2") as (e & He & _ & Hres);
      [by left|by left|reflexivity|discriminate|].
    by exists e.
Defined.

(** The resolver never raises. *)
Lemma getRealIP_returns (req : request) : ∃ ip, getRealIP req = Return ip.
Proof.
  unfold getRealIP.
  destruct (if_truthy (cf_connecting_ip req)); [by eexists|].
  destruct (if_truthy (x_real_ip req)); [by eexists|].
  destruct (if_truthy (x_forwarded_for req)) as [f|]; [|by eexists].
  destruct (split_comma_head f) as (e & rest & -> & _). by eexists.
Qed.

Lemma ident_of_option_undefined (o : option string) :
  ident_of_option o = IUndefined ↔ o = None.
Proof. destruct o; simpl; split; intros H; done. Qed.

Lemma or_str_None (a b : option string) :
  or_str a b = None ↔ absent a ∧ b = None.
Proof.
  unfold or_str, absent, truthy_str. destruct a as [s|].
  - destruct (String.eqb_spec s EmptyString) as [->|Hne]; simpl.
    + split; [intros ->; split; [by right|done]|by intros [_ ->]].
    + split; [discriminate|]. intros [[|[= ]] _]; [discriminate|].
      by destruct Hne.
  - split; [intros ->; split; [by left|done]|by intros [_ ->]].
Qed.

(** C5, as the code has it. The resolver is total and deterministic: every
    request yields exactly one result and none raises. The result is a
    string whenever an identity header is present or a peer address is
    available; when all three headers are absent or empty and no peer
    address is available, the result is [undefined], which is not a
    string. *)
Theorem C5_identity_total (req : request) :
  ∃ ip, getRealIP req = Return ip ∧
        (∀ ip', getRealIP req = Return ip' → ip' = ip) ∧
        (ip = IUndefined ↔
           absent (cf_connecting_ip req) ∧ absent (x_real_ip req) ∧
           absent (x_forwarded_for req) ∧
           absent (socket_remoteAddress req) ∧
           connection_remoteAddress req = None).
Proof.
  destruct (getRealIP_returns req) as [ip Hip]. exists ip.
  split; [done|]. split; [intros ip' Hip'; congruence|].
  revert Hip. unfold getRealIP.
  destruct (if_truthy (cf_connecting_ip req)) as [v|] eqn:Hcf.
  { intros [= <-]. split; [discriminate|].
    intros (Habs & _). apply if_truthy_None in Habs. congruence. }
  destruct (if_truthy (x_real_ip req)) as [v|] eqn:Hreal.
  { intros [= <-]. split; [discriminate|].
    intros (_ & Habs & _). apply if_truthy_None in Habs. congruence. }
  destruct (if_truthy (x_forwarded_for req)) as [f|] eqn:Hfwd.
  { destruct (split_comma_head f) as (e & rest & -> & _).
    intros [= <-]. split; [discriminate|].
    intros (_ & _ & Habs & _). apply if_truthy_None in Habs. congruence. }
  intros [= <-]. rewrite ident_of_option_undefined, or_str_None.
  apply if_truthy_None in Hcf, Hreal, Hfwd. tauto.
Qed.

(** C5, as stated, fails: a request with no identity header and no peer
    address resolves to [undefined], so not every request yields a
    string. *)
Lemma C5_identity_total_counterexample :
  getRealIP no_information = Return IUndefined ∧
  ¬ (∀ req, ∃ s, getRealIP req = Return (IStr s)).
Proof.
  split; [reflexivity|].
  intros Hall. destruct (Hall no_information) as [s Hs]. discriminate.
Qed.

(** ** Sets as insertion-ordered lists *)

Lemma same_value_zero_eq (a b : jsval) : same_value_zero a b = true → a = b.
Proof.
  destruct a as [|[]], b as [|[]]; simpl; try done.
  - intros H. by apply Bool.eqb_prop in H as ->.
  - intros H. by apply Z.eqb_eq in H as ->.
  - intros H. by apply String.eqb_eq in H as ->.
Qed.

Lemma same_value_zero_sym (a b : jsval) :
  same_value_zero a b = same_value_zero b a.
Proof.
  destruct a as [|[]], b as [|[]]; simpl; try done.
  - by destruct b0, b.
  - apply Z.eqb_sym.
  - apply String.eqb_sym.
Qed.

Lemma same_value_zero_ident (ip : ident) :
  same_value_zero (ident_val ip) (ident_val ip) = true.
Proof. destruct ip; simpl; [apply String.eqb_refl|done]. Qed.

Lemma Set_has_app (x : jsval) (s t : list jsval) :
  Set_has x (s ++ t)%list = Set_has x s || Set_has x t.
Proof. apply existsb_app. Qed.

Lemma Set_has_In (x : jsval) (s : list jsval) : Set_has x s = true → In x s.
Proof.
  unfold Set_has. rewrite existsb_exists.
  intros (y & Hy & Heq). by apply same_value_zero_eq in Heq as ->.
Qed.

Lemma Set_has_add_same (ip : ident) (s : list jsval) :
  Set_has (ident_val ip) (Set_add (ident_val ip) s) = true.
Proof.
  unfold Set_add. destruct (Set_has (ident_val ip) s) eqn:Hhas; [done|].
  rewrite Set_has_app. simpl. rewrite same_value_zero_ident.
  by rewrite Bool.orb_true_r.
Qed.

Lemma Set_has_delete_same (x : jsval) (s : list jsval) :
  Set_has x (Set_delete x s) = false.
Proof.
  unfold Set_has, Set_delete. induction s as [|y s IH]; [done|]. simpl.
  destruct (same_value_zero x y) eqn:Hxy; simpl; [done|]. by rewrite Hxy.
Qed.

Lemma occurrences_app (x : jsval) (s t : list jsval) :
  occurrences x (s ++ t)%list = (occurrences x s + occurrences x t)%nat.
Proof. unfold occurrences. by rewrite List.filter_app, List.length_app. Qed.

Lemma occurrences_absent (x : jsval) (s : list jsval) :
  Set_has x s = false → occurrences x s = 0%nat.
Proof.
  unfold occurrences, Set_has. induction s as [|y s IH]; [done|]. simpl.
  destruct (same_value_zero x y); simpl; [done|]. exact IH.
Qed.

Lemma occurrences_member (x : jsval) (s : list jsval) :
  Set_wf s → Set_has x s = true → occurrences x s = 1%nat.
Proof.
  induction s as [|y s IH]; [done|]. intros [Hy Hwf]. simpl.
  unfold occurrences. simpl.
  destruct (same_value_zero x y) eqn:Hxy; simpl.
  - intros _. apply same_value_zero_eq in Hxy as ->.
    f_equal. by apply occurrences_absent.
  - apply IH, Hwf.
Qed.

Lemma Set_wf_snoc (x : jsval) (s : list jsval) :
  Set_wf s → Set_has x s = false → Set_wf (s ++ [x])%list.
Proof.
  induction s as [|y s IH]; simpl; [done|].
  intros [Hy Hwf]. destruct (same_value_zero x y) eqn:Hxy; simpl; [done|].
  intros Hx. split; [|by apply IH].
  rewrite Set_has_app, Hy. simpl.
  by rewrite same_value_zero_sym, Hxy.
Qed.

Lemma Set_wf_add (x : jsval) (s : list jsval) : Set_wf s → Set_wf (Set_add x s).
Proof.
  intros Hwf. unfold Set_add. destruct (Set_has x s) eqn:Hx; [done|].
  by apply Set_wf_snoc.
Qed.

(** [new Set(arr)], with the members already collected made explicit. *)
Lemma Set_of_list_from (l acc : list jsval) :
  let s := fold_left (fun s x => Set_add x s) l acc in
  (∀ x, In x s ↔ In x acc ∨ In x l) ∧
  (∀ x, Set_has x s = Set_has x acc || Set_has x l) ∧
  (Set_wf acc → Set_wf s) ∧
  (Set_wf (acc ++ l)%list → s = (acc ++ l)%list).
Proof.
  revert acc. induction l as [|y l IH]; intros acc; simpl.
  - split; [intros x; tauto|]. split; [intros x; by rewrite Bool.orb_false_r|].
    split; [done|]. by rewrite app_nil_r.
  - destruct (IH (Set_add y acc)) as (Hin & Hhas & Hwf & Heq).
    split; [|split; [|split]].
    + intros x. rewrite Hin. unfold Set_add.
      destruct (Set_has y acc) eqn:Hy.
      * apply Set_has_In in Hy. split; [tauto|].
        intros [?|[<-|?]]; tauto.
      * rewrite in_app_iff. simpl. tauto.
    + intros x. rewrite Hhas. unfold Set_add.
      destruct (Set_has y acc) eqn:Hy.
      * destruct (same_value_zero x y) eqn:Hxy; simpl; [|done].
        apply same_value_zero_eq in Hxy as ->. by rewrite Hy.
      * rewrite Set_has_app. simpl. rewrite Bool.orb_false_r.
        by rewrite Bool.orb_assoc.
    + intros Hacc. by apply Hwf, Set_wf_add.
    + intros Hall.
      assert (Set_has y acc = false) as Hy.
      { clear -Hall. induction acc as [|a acc IHacc]; [done|].
        simpl in *. destruct Hall as [Ha Hall].
        rewrite Set_has_app in Ha. simpl in Ha.
        apply Bool.orb_false_iff in Ha as [_ Ha].
        apply Bool.orb_false_iff in Ha as [Ha _].
        rewrite same_value_zero_sym, Ha. simpl. by apply IHacc. }
      unfold Set_add in *. rewrite Hy in *.
      rewrite <- app_assoc in Heq. by apply Heq.
Qed.


(** ** The ban store *)

Lemma saveBannedIPs_spec (iso : string) (st : state) :
  let r := saveBannedIPs iso st in
  r.1 = Return tt ∧
  requestTracker r.2 = requestTracker st ∧
  bannedIPs r.2 = bannedIPs st ∧
  fs_write_calls (disk r.2) = S (fs_write_calls (disk st)) ∧
  fs_readable (disk r.2) = fs_readable (disk st) ∧
  fs_writable (disk r.2) = fs_writable (disk st) ∧
  fs_file (disk r.2) =
    if fs_writable (disk st) then Some (JSON_stringify (record_of iso st))
    else fs_file (disk st).
Proof. run_js. by destruct (fs_writable (disk st)). Qed.

Lemma banIP_banned (ip : ident) (iso : string) (st : state) :
  Set_has (ident_val ip) (bannedIPs st) = true →
  banIP ip iso st = (Return tt, st).
Proof. intros Hhas. unfold banIP. run_js. by rewrite Hhas. Qed.

Lemma banIP_fresh (ip : ident) (iso : string) (st : state) :
  Set_has (ident_val ip) (bannedIPs st) = false →
  let r := banIP ip iso st in
  r.1 = Return tt ∧
  requestTracker r.2 = requestTracker st ∧
  bannedIPs r.2 = (bannedIPs st ++ [ident_val ip])%list ∧
  fs_write_calls (disk r.2) = S (fs_write_calls (disk st)) ∧
  fs_readable (disk r.2) = fs_readable (disk st) ∧
  fs_writable (disk r.2) = fs_writable (disk st) ∧
  fs_file (disk r.2) =
    if fs_writable (disk st)
    then Some (JSON_stringify
                 {| ips := (bannedIPs st ++ [ident_val ip])%list;
                    lastUpdated := iso;
                    totalBanned := S (List.length (bannedIPs st)) |})
    else fs_file (disk st).
Proof.
  intros Hhas. unfold banIP, Set_add. run_js. rewrite Hhas. simpl.
  destruct (fs_writable (disk st)); simpl; rewrite ?Hhas;
    repeat split; try done.
  rewrite List.length_app. simpl. do 4 f_equal. lia.
Qed.

(** C6, as the code has it. [banIP] is idempotent: on an identity already
    in the set it changes nothing and writes nothing; otherwise it appends
    the identity to the set and calls the save once before returning (the
    file then holds the new set when the write succeeds). Calling it twice
    therefore makes exactly one write call when the identity was not banned
    and none when it was, and either way the set then holds the identity
    exactly once. *)
Theorem C6_ban_idempotent (ip : ident) (iso1 iso2 : string) (st : state) :
  Set_wf (bannedIPs st) →
  let once := banIP ip iso1 st in
  let twice := ban_twice ip iso1 iso2 st in
  (Set_has (ident_val ip) (bannedIPs st) = true → once = (Return tt, st)) ∧
  (Set_has (ident_val ip) (bannedIPs st) = false →
     bannedIPs once.2 = (bannedIPs st ++ [ident_val ip])%list ∧
     fs_write_calls (disk once.2) = S (fs_write_calls (disk st)) ∧
     (fs_writable (disk st) = true →
      fs_file (disk once.2) = Some (JSON_stringify (record_of iso1 once.2)))) ∧
  twice = once ∧
  fs_write_calls (disk twice.2) =
    (fs_write_calls (disk st) +
     (if Set_has (ident_val ip) (bannedIPs st) then 0 else 1))%nat ∧
  occurrences (ident_val ip) (bannedIPs twice.2) = 1%nat.
Proof.
  intros Hwf once twice.
  assert (twice = once) as Htwice.
  { subst once twice. unfold ban_twice.
    destruct (Set_has (ident_val ip) (bannedIPs st)) eqn:Hhas.
    - unfold mbind, js_bind. rewrite (banIP_banned ip iso1 st Hhas).
      by apply banIP_banned.
    - destruct (banIP_fresh ip iso1 st Hhas) as (Hret & _ & Hset & _).
      unfold mbind, js_bind.
      destruct (banIP ip iso1 st) as [o st1] eqn:Hrun. simpl in *. subst o.
      apply banIP_banned. rewrite Hset, Set_has_app. simpl.
      by rewrite same_value_zero_ident, Bool.orb_true_r. }
  split; [apply banIP_banned|].
  split.
  { intros Hhas.
    destruct (banIP_fresh ip iso1 st Hhas) as (_ & _ & Hset & Hcalls & _ & _ & Hfile).
    split; [done|]. split; [done|].
    intros Hw. fold once in Hfile, Hset. rewrite Hfile, Hw.
    unfold record_of. rewrite Hset, List.length_app. simpl.
    do 4 f_equal. lia. }
  split; [done|]. rewrite Htwice.
  destruct (Set_has (ident_val ip) (bannedIPs st)) eqn:Hhas.
  - subst once. rewrite (banIP_banned ip iso1 st Hhas). simpl.
    split; [lia|]. by apply occurrences_member.
  - destruct (banIP_fresh ip iso1 st Hhas) as (_ & _ & Hset & Hcalls & _).
    fold once in Hset, Hcalls. rewrite Hset, Hcalls. split; [lia|].
    rewrite occurrences_app, (occurrences_absent _ _ Hhas).
    unfold occurrences. simpl. by rewrite same_value_zero_ident.
Qed.

Lemma C6_ban_idempotent_witness :
  let st := initial_state {| fs_file := None; fs_readable := true;
                             fs_writable := true; fs_write_calls := 0 |} in
  let twice := ban_twice (IStr "6.6.6.6") "t1" "t2" st in
  fs_write_calls (disk twice.2) = 1%nat ∧
  occurrences (Json (JStr "6.6.6.6")) (bannedIPs twice.2) = 1%nat.
Proof.
  intros st twice.
  destruct (C6_ban_idempotent (IStr "6.6.6.6") "t1" "t2" st I)
    as (_ & _ & _ & Hcalls & Hocc).
  split; [exact Hcalls|exact Hocc].
Defined.

(** C6, as stated, fails: from a state in which the identity is already
    banned, two calls make no write call at all, not exactly one. *)
Lemma C6_ban_idempotent_counterexample :
  Set_wf (bannedIPs already_banned) ∧
  fs_write_calls
    (disk (ban_twice (IStr "6.6.6.6") "t1" "t2" already_banned).2) =
  fs_write_calls (disk already_banned) ∧
  fs_write_calls
    (disk (ban_twice (IStr "6.6.6.6") "t1" "t2" already_banned).2) ≠
  S (fs_write_calls (disk already_banned)).
Proof. vm_compute. repeat split; done. Qed.

(** *** Loading *)

Lemma loadBannedIPs_present (iso : string) (st : state) (doc : json)
    (field : jsval) (s : list jsval) :
  fs_file (disk st) = Some (JsonText doc) →
  fs_readable (disk st) = true →
  get_ips doc = Return field →
  new_Set (or_empty_array field) = Return s →
  let r := loadBannedIPs iso st in
  r.1 = Return tt ∧ bannedIPs r.2 = s ∧
  requestTracker r.2 = requestTracker st ∧ disk r.2 = disk st.
Proof.
  intros Hfile Hread Hips Hset. unfold loadBannedIPs. run_js.
  repeat (first [rewrite Hfile|rewrite Hread|rewrite Hips|rewrite Hset]; simpl).
  done.
Qed.

(** Whenever the [try] block of [loadBannedIPs] raises, the handler leaves
    an empty set and the call returns normally. *)
Lemma loadBannedIPs_failure (iso : string) (st : state) :
  (∃ t, fs_file (disk st) = Some t ∧
        (fs_readable (disk st) = false ∨
         (∃ e, JSON_parse t = Throw e) ∨
         (∃ doc e, JSON_parse t = Return doc ∧ get_ips doc = Throw e) ∨
         (∃ doc field e, JSON_parse t = Return doc ∧
                         get_ips doc = Return field ∧
                         new_Set (or_empty_array field) = Throw e))) →
  let r := loadBannedIPs iso st in
  r.1 = Return tt ∧ bannedIPs r.2 = [] ∧
  requestTracker r.2 = requestTracker st ∧ disk r.2 = disk st.
Proof.
  intros (t & Hfile & Hwhy). unfold loadBannedIPs. run_js.
  repeat (rewrite Hfile; simpl).
  destruct Hwhy as [Hread|Hwhy]; [by rewrite Hread|].
  destruct (fs_readable (disk st)); [|done]. simpl.
  destruct Hwhy as [(e & Hparse)|[(doc & e & Hparse & Hips)|
                                   (doc & field & e & Hparse & Hips & Hset)]];
    repeat (first [rewrite Hparse|rewrite Hips|rewrite Hset]; simpl); done.
Qed.

Lemma loadBannedIPs_returns (iso : string) (st : state) :
  (loadBannedIPs iso st).1 = Return tt.
Proof.
  unfold loadBannedIPs. run_js.
  destruct (fs_file (disk st)) as [t|] eqn:Hfile; simpl;
    repeat (rewrite Hfile; simpl).
  - destruct (fs_readable (disk st)); [|done]. simpl.
    destruct (JSON_parse t) as [doc|e]; [|done]. simpl.
    destruct (get_ips doc) as [field|e]; [|done]. simpl.
    by destruct (new_Set (or_empty_array field)).
  - by destruct (fs_writable (disk st)).
Qed.

Lemma loadBannedIPs_absent (iso : string) (st : state) :
  fs_file (disk st) = None →
  let r := loadBannedIPs iso st in
  let saved := saveBannedIPs iso st in
  r.1 = Return tt ∧ bannedIPs r.2 = bannedIPs st ∧
  requestTracker r.2 = requestTracker st ∧ disk r.2 = disk saved.2.
Proof.
  intros Hfile. unfold loadBannedIPs. run_js.
  repeat (rewrite Hfile; simpl).
  by destruct (fs_writable (disk st)).
Qed.

Lemma Set_has_string_saved (s : string) (l : list jsval) :
  Set_has (Json (JStr s)) (map Json (map json_of_element l)) =
  Set_has (Json (JStr s)) l.
Proof.
  unfold Set_has. induction l as [|x l IH]; [done|]. simpl. rewrite IH.
  by destruct x as [|[]].
Qed.




(** The value [undefined], which [getRealIP] yields for a request without
    any address, is written to the file as [null]. *)
Remark undefined_member_saved_as_null :
  bannedIPs
    (persist_then_load "t1" "t2"
       (set_bannedIPs [Undefined] (initial_state quiet_disk))).2 =
  [Json JNull].
Proof. reflexivity. Qed.

(** A present file that carries no list leaves an empty set. *)
Lemma loadBannedIPs_no_list (iso : string) (st : state) (t : file_text) :
  fs_file (disk st) = Some t →
  ¬ carries_list t →
  let r := loadBannedIPs iso st in
  r.1 = Return tt ∧ bannedIPs r.2 = [] ∧
  requestTracker r.2 = requestTracker st ∧ disk r.2 = disk st.
Proof.
  intros Hfile Hno.
  destruct (fs_readable (disk st)) eqn:Hread.
  2: { apply loadBannedIPs_failure. exists t. split; [done|]. by left. }
  assert (∀ doc field,
            t = JsonText doc → get_ips doc = Return field →
            new_Set (or_empty_array field) = Return [] →
            let r := loadBannedIPs iso st in
            r.1 = Return tt ∧ bannedIPs r.2 = [] ∧
            requestTracker r.2 = requestTracker st ∧ disk r.2 = disk st)
    as Hempty.
  { intros doc field -> Hget Hset.
    by apply (loadBannedIPs_present iso st doc field []). }
  assert (∀ doc field e,
            t = JsonText doc → get_ips doc = Return field →
            new_Set (or_empty_array field) = Throw e →
            let r := loadBannedIPs iso st in
            r.1 = Return tt ∧ bannedIPs r.2 = [] ∧
            requestTracker r.2 = requestTracker st ∧ disk r.2 = disk st)
    as Hraise.
  { intros doc field e -> Hget Hset. apply loadBannedIPs_failure.
    exists (JsonText doc). split; [done|]. right. right. right.
    by exists doc, field, e. }
  destruct t as [doc|raw].
  2: { apply loadBannedIPs_failure. exists (Garbage raw). split; [done|].
       right. left. by exists SyntaxError. }
  destruct doc as [|b|n|s|l|props].
  - apply loadBannedIPs_failure. exists (JsonText JNull). split; [done|].
    right. right. left. by exists JNull, TypeError.
  - by apply (Hempty (JBool b) Undefined).
  - by apply (Hempty (JNum n) Undefined).
  - by apply (Hempty (JStr s) Undefined).
  - by apply (Hempty (JArr l) Undefined).
  - destruct (assoc "ips" props) as [v|] eqn:Hips.
    2: { apply (Hempty (JObj props) Undefined); [done| |done].
         simpl. by rewrite Hips. }
    assert (get_ips (JObj props) = Return (Json v)) as Hget
      by (simpl; by rewrite Hips).
    destruct v as [|b|n|s|l|inner].
    + by apply (Hempty (JObj props) (Json JNull)).
    + destruct b.
      * by apply (Hraise (JObj props) (Json (JBool true)) TypeError).
      * by apply (Hempty (JObj props) (Json (JBool false))).
    + destruct (Z.eqb n 0) eqn:Hn.
      * apply (Hempty (JObj props) (Json (JNum n))); [done|done|].
        unfold or_empty_array, truthy. by rewrite Hn.
      * apply (Hraise (JObj props) (Json (JNum n)) TypeError); [done|done|].
        unfold or_empty_array, truthy. by rewrite Hn.
    + destruct (String.eqb_spec s EmptyString) as [->|Hne].
      * by apply (Hempty (JObj props) (Json (JStr EmptyString))).
      * destruct Hno. exists props, (JStr s). split; [done|]. split; [done|].
        right. by exists s.
    + destruct Hno. exists props, (JArr l). split; [done|]. split; [done|].
      left. by exists l.
    + by apply (Hraise (JObj props) (Json (JObj inner)) TypeError).
Qed.

(** C8, as the code has it. [loadBannedIPs] fails safe. At startup with the
    file absent, the set stays empty and the empty record is saved at once,
    so that the file exists afterwards (when the disk accepts the write; a
    refused write is caught and leaves no file). With the file present, the
    set is emptied, whatever it held before, for every text that is not
    JSON, for a file that cannot be read, and for every JSON document that
    carries no list under [ips]: the document [null], a document that is
    not an object, an object without [ips], and an [ips] that is falsy or
    cannot be iterated. An [ips] array is loaded as listed, repeats
    dropped. Whatever the disk holds, the call returns normally. *)
Theorem C8_load_fails_safe :
  (∀ (iso : string) (d : filesystem),
     fs_file d = None →
     let r := loadBannedIPs iso (initial_state d) in
     r.1 = Return tt ∧ bannedIPs r.2 = [] ∧
     fs_write_calls (disk r.2) = S (fs_write_calls d) ∧
     fs_file (disk r.2) =
       if fs_writable d
       then Some (JSON_stringify
                    {| ips := []; lastUpdated := iso; totalBanned := 0 |})
       else None) ∧
  (∀ (iso raw : string) (st : state),
     fs_file (disk st) = Some (Garbage raw) →
     let r := loadBannedIPs iso st in
     r.1 = Return tt ∧ bannedIPs r.2 = [] ∧
     requestTracker r.2 = requestTracker st ∧ disk r.2 = disk st) ∧
  (∀ (iso : string) (st : state), (loadBannedIPs iso st).1 = Return tt) ∧
  (∀ (iso : string) (st : state) (t : file_text),
     fs_file (disk st) = Some t →
     fs_readable (disk st) = false ∨ ¬ carries_list t →
     let r := loadBannedIPs iso st in
     r.1 = Return tt ∧ bannedIPs r.2 = [] ∧
     requestTracker r.2 = requestTracker st ∧ disk r.2 = disk st) ∧
  (∀ (iso : string) (st : state) (props : list (string * json))
     (l : list json),
     fs_file (disk st) = Some (JsonText (JObj props)) →
     fs_readable (disk st) = true →
     assoc "ips" props = Some (JArr l) →
     let r := loadBannedIPs iso st in
     r.1 = Return tt ∧ bannedIPs r.2 = Set_of_list (map Json l) ∧
     requestTracker r.2 = requestTracker st ∧ disk r.2 = disk st).
Proof.
  split; [|split; [|split; [|split]]].
  - intros iso d Hfile r.
    destruct (loadBannedIPs_absent iso (initial_state d) Hfile)
      as (Hret & Hset & _ & Hdisk).
    destruct (saveBannedIPs_spec iso (initial_state d))
      as (_ & _ & _ & Hcalls & _ & _ & Hsaved).
    fold r in Hret, Hset, Hdisk. rewrite Hdisk, Hcalls, Hsaved. simpl.
    by rewrite Hfile.
  - intros iso raw st Hfile. apply loadBannedIPs_failure.
    exists (Garbage raw). split; [done|]. right. left. by exists SyntaxError.
  - apply loadBannedIPs_returns.
  - intros iso st t Hfile [Hread|Hno].
    + apply loadBannedIPs_failure. exists t. split; [done|]. by left.
    + by apply (loadBannedIPs_no_list iso st t).
  - intros iso st props l Hfile Hread Hips.
    apply (loadBannedIPs_present iso st (JObj props) (Json (JArr l)));
      [done|done| |done].
    simpl. by rewrite Hips.
Qed.

Lemma C8_load_fails_safe_witness :
  let fresh_disk := {| fs_file := None; fs_readable := true;
                       fs_writable := true; fs_write_calls := 0 |} in
  let torn_disk := {| fs_file := Some (Garbage "{ ips: [ ");
                      fs_readable := true; fs_writable := true;
                      fs_write_calls := 0 |} in
  let odd_disk := {| fs_file := Some (JsonText (JObj [ ("ips", JNum 7) ]));
                     fs_readable := true; fs_writable := true;
                     fs_write_calls := 0 |} in
  bannedIPs (loadBannedIPs "t" (initial_state fresh_disk)).2 = [] ∧
  is_Some (fs_file (disk (loadBannedIPs "t" (initial_state fresh_disk)).2)) ∧
  bannedIPs (loadBannedIPs "t" (set_disk torn_disk already_banned)).2 = [] ∧
  bannedIPs (loadBannedIPs "t" (set_disk odd_disk already_banned)).2 = [].
Proof.
  intros fresh_disk torn_disk odd_disk.
  destruct C8_load_fails_safe as (Habsent & Hgarbage & _ & Hnolist & _).
  destruct (Habsent "t" fresh_disk eq_refl) as (_ & Hset & _ & Hfile).
  destruct (Hgarbage "t" "{ ips: [ " (set_disk torn_disk already_banned) eq_refl)
    as (_ & Hset' & _).
  destruct (Hnolist "t" (set_disk odd_disk already_banned)
              (JsonText (JObj [ ("ips", JNum 7) ])) eq_refl)
    as (_ & Hset2 & _).
  { right. intros (props & v & Heq & Hips & Hshape).
    injection Heq as <-. simpl in Hips. injection Hips as <-.
    destruct Hshape as [[l Hl]|(s & Hs & _)]; discriminate. }
  split; [exact Hset|]. split; [|split; [exact Hset'|exact Hset2]].
  rewrite Hfile. simpl. by eexists.
Defined.

(** C8, as stated, fails: a file that parses but is no ban record can leave a
    ban set that is not empty. With the object [{ips: "1.2.3.4"}] on file,
    [new Set] reads the string character by character and the process
    starts with five bans. *)
Lemma C8_load_fails_safe_counterexample :
  let r := loadBannedIPs "t" (initial_state string_for_list_disk) in
  r.1 = Return tt ∧
  bannedIPs r.2 =
    [Json (JStr "1"); Json (JStr "."); Json (JStr "2"); Json (JStr "3");
     Json (JStr "4")] ∧
  bannedIPs r.2 ≠ [].
Proof.
  cbv zeta.
  assert (bannedIPs (loadBannedIPs "t" (initial_state string_for_list_disk)).2 =
            [Json (JStr "1"); Json (JStr "."); Json (JStr "2");
             Json (JStr "3"); Json (JStr "4")]) as Hset by reflexivity.
  rewrite Hset. split; [reflexivity|]. split; [done|discriminate].
Qed.

(** ** The admission middleware *)

Lemma admission_banned (req : request) (now : Z) (iso : string) (st : state)
    (ip : ident) :
  getRealIP req = Return ip →
  Set_has (ident_val ip) (bannedIPs st) = true →
  admission req now iso st = (Return SocketDestroyed, log (LogBlocked ip) st).
Proof.
  intros Hip Hhas. unfold admission. run_js. rewrite Hip. simpl.
  by rewrite Hhas.
Qed.

Lemma admission_new (req : request) (now : Z) (iso : string) (st : state)
    (ip : ident) :
  getRealIP req = Return ip →
  Set_has (ident_val ip) (bannedIPs st) = false →
  requestTracker st !! ip = None →
  admission req now iso st =
    (Return NextCalled,
     store_entry ip {| count := 1; firstRequest := now; lastRequest := now |} st).
Proof.
  intros Hip Hhas Hnew. unfold admission. run_js. rewrite Hip. simpl.
  rewrite Hhas. simpl. by rewrite Hnew.
Qed.

Lemma admission_expired (req : request) (now : Z) (iso : string) (st : state)
    (ip : ident) (e : tracker_entry) :
  getRealIP req = Return ip →
  Set_has (ident_val ip) (bannedIPs st) = false →
  requestTracker st !! ip = Some e →
  TIME_WINDOW < now - firstRequest e →
  admission req now iso st =
    (Return NextCalled,
     store_entry ip {| count := 1; firstRequest := now; lastRequest := now |} st).
Proof.
  intros Hip Hhas Hold Hexp. unfold admission. run_js. rewrite Hip. simpl.
  rewrite Hhas. simpl. rewrite Hold.
  destruct (Z.gtb_spec (now - firstRequest e) TIME_WINDOW); [|lia].
  by simpl.
Qed.

Lemma admission_counted (req : request) (now : Z) (iso : string) (st : state)
    (ip : ident) (e : tracker_entry) :
  getRealIP req = Return ip →
  Set_has (ident_val ip) (bannedIPs st) = false →
  requestTracker st !! ip = Some e →
  (now - firstRequest e ≤ TIME_WINDOW)%Z →
  (count e + 1 ≤ REQUEST_LIMIT)%Z →
  let e' := {| count := count e + 1; firstRequest := firstRequest e;
               lastRequest := now |} in
  let r := admission req now iso st in
  r.1 = Return NextCalled ∧
  requestTracker r.2 = <[ip := e']> (requestTracker st) ∧
  bannedIPs r.2 = bannedIPs st ∧ disk r.2 = disk st.
Proof.
  intros Hip Hhas Hold Hin Hle. unfold admission. run_js. rewrite Hip. simpl.
  rewrite Hhas. simpl. rewrite Hold.
  destruct (Z.gtb_spec (now - firstRequest e) TIME_WINDOW); [lia|]. simpl.
  destruct (Z.gtb_spec (count e + 1) REQUEST_LIMIT); [lia|]. simpl.
  by destruct (count e + 1 >? ALERT_LEVEL).
Qed.

Lemma admission_exceeded_run (req : request) (now : Z) (iso : string)
    (st : state) (ip : ident) (e : tracker_entry) :
  getRealIP req = Return ip →
  Set_has (ident_val ip) (bannedIPs st) = false →
  requestTracker st !! ip = Some e →
  (now - firstRequest e ≤ TIME_WINDOW)%Z →
  REQUEST_LIMIT < count e + 1 →
  let e' := {| count := count e + 1; firstRequest := firstRequest e;
               lastRequest := now |} in
  admission req now iso st =
    (Return SocketDestroyed,
     (banIP ip iso (log (LogWarning ip (count e')) (store_entry ip e' st))).2).
Proof.
  intros Hip Hhas Hold Hin Hgt e'. unfold admission.
  unfold mbind at 1, js_bind at 1, lift. rewrite Hip.
  unfold mbind at 1, js_bind at 1, gets. rewrite Hhas.
  unfold mbind at 1, js_bind at 1. rewrite Hold.
  destruct (Z.gtb_spec (now - firstRequest e) TIME_WINDOW); [lia|].
  cbn [count firstRequest lastRequest].
  destruct (Z.gtb_spec (count e + 1) REQUEST_LIMIT); [|lia].
  unfold mbind at 1, js_bind at 1, modify.
  unfold mbind at 1, js_bind at 1, console_log, modify.
  unfold mbind, js_bind, mret, js_ret.
  fold e'. change (count e + 1) with (count e').
  match goal with |- context [banIP ip iso ?s] => set (st1 := s) end.
  change (log (LogWarning ip (count e')) (store_entry ip e' st)) with st1.
  destruct (banIP_fresh ip iso st1 Hhas) as (Hret & _).
  destruct (banIP ip iso st1) as [o st2]. simpl in *. by subst o.
Qed.

Lemma admission_exceeded (req : request) (now : Z) (iso : string) (st : state)
    (ip : ident) (e : tracker_entry) :
  getRealIP req = Return ip →
  Set_has (ident_val ip) (bannedIPs st) = false →
  requestTracker st !! ip = Some e →
  (now - firstRequest e ≤ TIME_WINDOW)%Z →
  REQUEST_LIMIT < count e + 1 →
  let e' := {| count := count e + 1; firstRequest := firstRequest e;
               lastRequest := now |} in
  let r := admission req now iso st in
  r.1 = Return SocketDestroyed ∧
  requestTracker r.2 = <[ip := e']> (requestTracker st) ∧
  bannedIPs r.2 = (bannedIPs st ++ [ident_val ip])%list ∧
  fs_write_calls (disk r.2) = S (fs_write_calls (disk st)) ∧
  fs_file (disk r.2) =
    if fs_writable (disk st)
    then Some (JSON_stringify
                 {| ips := (bannedIPs st ++ [ident_val ip])%list;
                    lastUpdated := iso;
                    totalBanned := S (List.length (bannedIPs st)) |})
    else fs_file (disk st).
Proof.
  intros Hip Hhas Hold Hin Hgt e' r. subst r.
  rewrite (admission_exceeded_run req now iso st ip e Hip Hhas Hold Hin Hgt).
  fold e'. simpl.
  destruct (banIP_fresh ip iso
              (log (LogWarning ip (count e')) (store_entry ip e' st)) Hhas)
    as (_ & Htr & Hset & Hcalls & _ & _ & Hfile).
  by repeat split.
Qed.

Lemma serve_cons (a : arrival) (rest : list arrival) (st : state) :
  serve (a :: rest) st =
    match admission (arr_req a) (arr_now a) (arr_iso a) st with
    | (Return d, st1) =>
        match serve rest st1 with
        | (Return ds, st2) => (Return (d :: ds), st2)
        | (Throw e, st2) => (Throw e, st2)
        end
    | (Throw e, st1) => (Throw e, st1)
    end.
Proof. reflexivity. Qed.

Lemma serve_app (l1 l2 : list arrival) (st : state) :
  serve (l1 ++ l2)%list st =
    match serve l1 st with
    | (Return ds1, st1) =>
        match serve l2 st1 with
        | (Return ds2, st2) => (Return (ds1 ++ ds2)%list, st2)
        | (Throw e, st2) => (Throw e, st2)
        end
    | (Throw e, st1) => (Throw e, st1)
    end.
Proof.
  revert st. induction l1 as [|a l1 IH]; intros st.
  - simpl. unfold mret, js_ret. by destruct (serve l2 st) as [[ds|e] st2].
  - change ((a :: l1) ++ l2)%list with (a :: (l1 ++ l2))%list.
    rewrite !serve_cons.
    destruct (admission (arr_req a) (arr_now a) (arr_iso a) st)
      as [[d|e] st1]; [|done].
    rewrite IH. destruct (serve l1 st1) as [[ds1|e] st2]; [|done].
    by destruct (serve l2 st2) as [[ds2|e] st3].
Qed.

Lemma serve_admitted (arrivals : list arrival) :
  ∀ (st : state) (ip : ident) (e : tracker_entry),
    Forall (in_window ip (firstRequest e)) arrivals →
    Set_has (ident_val ip) (bannedIPs st) = false →
    requestTracker st !! ip = Some e →
    (count e + Z.of_nat (List.length arrivals) ≤ REQUEST_LIMIT)%Z →
    let r := serve arrivals st in
    r.1 = Return (replicate (List.length arrivals) NextCalled) ∧
    bannedIPs r.2 = bannedIPs st ∧ disk r.2 = disk st ∧
    ∃ e', requestTracker r.2 !! ip = Some e' ∧
          count e' = count e + Z.of_nat (List.length arrivals) ∧
          firstRequest e' = firstRequest e.
Proof.
  induction arrivals as [|a rest IH]; intros st ip e Hall Hhas Hold Hle.
  - simpl. repeat split; try done. exists e. split; [done|]. split; [lia|done].
  - apply Forall_cons in Hall as [[Hip Hin] Hall].
    change (List.length (a :: rest)) with (S (List.length rest)) in *.
    destruct (admission_counted (arr_req a) (arr_now a) (arr_iso a) st ip e
                Hip Hhas Hold Hin ltac:(lia)) as (Hret & Htr & Hset & Hdisk).
    cbv zeta. rewrite serve_cons.
    destruct (admission (arr_req a) (arr_now a) (arr_iso a) st) as [o st1].
    simpl in Hret, Htr, Hset, Hdisk. subst o.
    destruct (IH st1 ip
                {| count := count e + 1; firstRequest := firstRequest e;
                   lastRequest := arr_now a |})
      as (Hret' & Hset' & Hdisk' & e' & He' & Hcount & Hfirst).
    + exact Hall.
    + by rewrite Hset.
    + rewrite Htr. apply lookup_insert_eq.
    + simpl. lia.
    + destruct (serve rest st1) as [o st2]. simpl in *. subst o. simpl.
      split; [done|]. split; [congruence|]. split; [congruence|].
      exists e'. split; [done|]. split; [lia|done].
Qed.

Lemma serve_banned (arrivals : list arrival) :
  ∀ (st : state) (ip : ident),
    Forall (fun a => getRealIP (arr_req a) = Return ip) arrivals →
    Set_has (ident_val ip) (bannedIPs st) = true →
    let r := serve arrivals st in
    r.1 = Return (replicate (List.length arrivals) SocketDestroyed) ∧
    requestTracker r.2 = requestTracker st ∧
    bannedIPs r.2 = bannedIPs st ∧ disk r.2 = disk st.
Proof.
  induction arrivals as [|a rest IH]; intros st ip Hall Hhas; [done|].
  apply Forall_cons in Hall as [Hip Hall].
  cbv zeta. rewrite serve_cons.
  rewrite (admission_banned _ (arr_now a) (arr_iso a) st ip Hip Hhas).
  destruct (IH (log (LogBlocked ip) st) ip Hall Hhas)
    as (Hret & Htr & Hset & Hdisk).
  destruct (serve rest (log (LogBlocked ip) st)) as [o st2].
  simpl in *. subst o. simpl. by repeat split.
Qed.

Lemma admission_in_window (req : request) (now : Z) (iso : string)
    (st : state) (ip : ident) (e : tracker_entry) :
  getRealIP req = Return ip →
  Set_has (ident_val ip) (bannedIPs st) = false →
  requestTracker st !! ip = Some e →
  (now - firstRequest e ≤ TIME_WINDOW)%Z →
  requestTracker (admission req now iso st).2 !! ip =
    Some {| count := count e + 1; firstRequest := firstRequest e;
            lastRequest := now |}.
Proof.
  intros Hip Hhas Hold Hin.
  destruct (Z_le_gt_dec (count e + 1) REQUEST_LIMIT) as [Hle|Hgt].
  - destruct (admission_counted req now iso st ip e Hip Hhas Hold Hin Hle)
      as (_ & -> & _). apply lookup_insert_eq.
  - destruct (admission_exceeded req now iso st ip e Hip Hhas Hold Hin
                ltac:(lia)) as (_ & -> & _). apply lookup_insert_eq.
Qed.

(** C3. The tracker keeps a tumbling window. For a request of a client that
    is not banned, arriving at time [now]: with no entry, the entry is
    created with count 1 and window start [now]; with an entry whose window
    started more than [TIME_WINDOW] ago, the count resets to 1 and the
    window starts at [now]; otherwise the count goes up by one and the
    window start stays; the last-seen time is [now] in every case. So a
    first request at [t] followed by one at [t + TIME_WINDOW + 1] leaves
    count 1. *)
Theorem C3_tumbling_window (req : request) (now : Z) (iso iso' : string)
    (st : state) (ip : ident) :
  getRealIP req = Return ip →
  Set_has (ident_val ip) (bannedIPs st) = false →
  let r := admission req now iso st in
  (requestTracker st !! ip = None →
   requestTracker r.2 !! ip =
     Some {| count := 1; firstRequest := now; lastRequest := now |}) ∧
  (∀ e, requestTracker st !! ip = Some e →
        TIME_WINDOW < now - firstRequest e →
        requestTracker r.2 !! ip =
          Some {| count := 1; firstRequest := now; lastRequest := now |}) ∧
  (∀ e, requestTracker st !! ip = Some e →
        (now - firstRequest e ≤ TIME_WINDOW)%Z →
        requestTracker r.2 !! ip =
          Some {| count := count e + 1; firstRequest := firstRequest e;
                  lastRequest := now |}) ∧
  (∃ e', requestTracker r.2 !! ip = Some e' ∧ lastRequest e' = now) ∧
  (requestTracker st !! ip = None →
   let later := now + TIME_WINDOW + 1 in
   requestTracker
     (serve [ {| arr_req := req; arr_now := now; arr_iso := iso |};
              {| arr_req := req; arr_now := later; arr_iso := iso' |} ] st).2
     !! ip =
     Some {| count := 1; firstRequest := later; lastRequest := later |}).
Proof.
  intros Hip Hhas r.
  assert (requestTracker st !! ip = None →
          requestTracker r.2 !! ip =
            Some {| count := 1; firstRequest := now; lastRequest := now |})
    as Hcreate.
  { intros Hnew. subst r. rewrite (admission_new req now iso st ip Hip Hhas Hnew).
    apply lookup_insert_eq. }
  assert (∀ e, requestTracker st !! ip = Some e →
          TIME_WINDOW < now - firstRequest e →
          requestTracker r.2 !! ip =
            Some {| count := 1; firstRequest := now; lastRequest := now |})
    as Hreset.
  { intros e Hold Hexp. subst r.
    rewrite (admission_expired req now iso st ip e Hip Hhas Hold Hexp).
    apply lookup_insert_eq. }
  assert (∀ e, requestTracker st !! ip = Some e →
          (now - firstRequest e ≤ TIME_WINDOW)%Z →
          requestTracker r.2 !! ip =
            Some {| count := count e + 1; firstRequest := firstRequest e;
                    lastRequest := now |})
    as Hcount.
  { intros e Hold Hin. subst r. by apply admission_in_window. }
  split; [done|]. split; [done|]. split; [done|]. split.
  - destruct (requestTracker st !! ip) as [e|] eqn:Hold.
    + destruct (Z_le_gt_dec (now - firstRequest e) TIME_WINDOW) as [Hin|Hexp].
      * eexists. split; [by apply Hcount|done].
      * eexists. split; [apply (Hreset e); [done|lia]|done].
    + eexists. split; [by apply Hcreate|done].
  - intros Hnew later. rewrite serve_cons. cbn [arr_req arr_now arr_iso].
    rewrite (admission_new req now iso st ip Hip Hhas Hnew).
    rewrite serve_cons. cbn [arr_req arr_now arr_iso].
    rewrite (admission_expired req later iso'
               (store_entry ip
                  {| count := 1; firstRequest := now; lastRequest := now |} st)
               ip
               {| count := 1; firstRequest := now; lastRequest := now |}
               Hip Hhas).
    + simpl. apply lookup_insert_eq.
    + apply lookup_insert_eq.
    + simpl. unfold later, TIME_WINDOW. lia.
Qed.

Lemma C3_tumbling_window_witness :
  requestTracker
    (serve [ {| arr_req := from_peer "10.0.0.7"; arr_now := 1000;
                arr_iso := "t1" |};
             {| arr_req := from_peer "10.0.0.7"; arr_now := 61001;
                arr_iso := "t2" |} ] (initial_state quiet_disk)).2
    !! IStr "10.0.0.7" =
  Some {| count := 1; firstRequest := 61001; lastRequest := 61001 |}.
Proof.
  destruct (C3_tumbling_window (from_peer "10.0.0.7") 1000 "t1" "t2"
              (initial_state quiet_disk) (IStr "10.0.0.7"))
    as (_ & _ & _ & _ & Htwo); [reflexivity|reflexivity|].
  apply Htwo. reflexivity.
Defined.

(** C1. For a client that is not banned and has an entry whose window has
    not expired, the count goes up by one and the limit test is made on the
    new count: at most [REQUEST_LIMIT], the request is passed on and nothing
    is banned; above it, the client is banned (with a save) and the socket
    destroyed. With the limit at 50, of 51 requests of one new client inside
    one window the first 50 are passed on and the 51st bans the client and
    has its socket destroyed. *)
Theorem C1_threshold_boundary :
  (∀ (req : request) (now : Z) (iso : string) (st : state) (ip : ident)
     (e : tracker_entry),
     getRealIP req = Return ip →
     Set_has (ident_val ip) (bannedIPs st) = false →
     requestTracker st !! ip = Some e →
     (now - firstRequest e ≤ TIME_WINDOW)%Z →
     let r := admission req now iso st in
     requestTracker r.2 !! ip =
       Some {| count := count e + 1; firstRequest := firstRequest e;
               lastRequest := now |} ∧
     ((count e + 1 ≤ REQUEST_LIMIT)%Z →
      r.1 = Return NextCalled ∧ bannedIPs r.2 = bannedIPs st ∧
      disk r.2 = disk st) ∧
     (REQUEST_LIMIT < count e + 1 →
      r.1 = Return SocketDestroyed ∧
      Set_has (ident_val ip) (bannedIPs r.2) = true ∧
      fs_write_calls (disk r.2) = S (fs_write_calls (disk st)))) ∧
  (∀ (first last : arrival) (early : list arrival) (st : state) (ip : ident),
     getRealIP (arr_req first) = Return ip →
     Forall (in_window ip (arr_now first)) (early ++ [last])%list →
     List.length early = 49%nat →
     Set_has (ident_val ip) (bannedIPs st) = false →
     requestTracker st !! ip = None →
     let r := serve (first :: early ++ [last])%list st in
     r.1 = Return (replicate 50 NextCalled ++ [SocketDestroyed])%list ∧
     Set_has (ident_val ip) (bannedIPs r.2) = true ∧
     ∃ e, requestTracker r.2 !! ip = Some e ∧ count e = 51).
Proof.
  split.
  - intros req now iso st ip e Hip Hhas Hold Hin r. subst r.
    split; [|split].
    + by apply admission_in_window.
    + intros Hle.
      by destruct (admission_counted req now iso st ip e Hip Hhas Hold Hin Hle)
        as (? & _ & ? & ?).
    + intros Hgt.
      destruct (admission_exceeded req now iso st ip e Hip Hhas Hold Hin Hgt)
        as (Hret & _ & Hset & Hcalls & _).
      split; [done|]. split; [|done].
      rewrite Hset, Set_has_app. simpl.
      by rewrite same_value_zero_ident, Bool.orb_true_r.
  - intros first last early st ip Hip Hall Hlen Hhas Hnew r. subst r.
    apply Forall_app in Hall as [Hearly Hlast].
    apply Forall_cons in Hlast as [[Hiplast Hinlast] _].
    rewrite serve_cons, (admission_new _ _ _ st ip Hip Hhas Hnew).
    set (e0 := {| count := 1; firstRequest := arr_now first;
                  lastRequest := arr_now first |}).
    rewrite serve_app.
    destruct (serve_admitted early (store_entry ip e0 st) ip e0)
      as (Hret & Hset & _ & e1 & He1 & Hcount & Hfirst).
    { exact Hearly. }
    { exact Hhas. }
    { apply lookup_insert_eq. }
    { rewrite Hlen. unfold REQUEST_LIMIT. simpl. lia. }
    destruct (serve early (store_entry ip e0 st)) as [o st1].
    simpl in Hret, Hset, He1. subst o. rewrite Hlen in Hcount.
    rewrite serve_cons.
    destruct (admission_exceeded (arr_req last) (arr_now last) (arr_iso last)
                st1 ip e1 Hiplast)
      as (Hret' & Htr' & Hset' & _).
    { by rewrite Hset. }
    { exact He1. }
    { by rewrite Hfirst. }
    { rewrite Hcount. unfold REQUEST_LIMIT. simpl. lia. }
    destruct (admission (arr_req last) (arr_now last) (arr_iso last) st1)
      as [o st2]. simpl in Hret', Htr', Hset'. subst o. simpl.
    rewrite Hlen. split; [done|]. split.
    + rewrite Hset', Set_has_app. simpl.
      by rewrite same_value_zero_ident, Bool.orb_true_r.
    + eexists. split; [rewrite Htr'; apply lookup_insert_eq|].
      simpl. rewrite Hcount. simpl. lia.
Qed.

Lemma C1_threshold_boundary_witness :
  let r := serve (hit "10.0.0.7" 0 ::
                  replicate 49 (hit "10.0.0.7" 5000) ++ [hit "10.0.0.7" 10000])%list
                 (initial_state quiet_disk) in
  r.1 = Return (replicate 50 NextCalled ++ [SocketDestroyed])%list ∧
  Set_has (Json (JStr "10.0.0.7")) (bannedIPs r.2) = true.
Proof.
  destruct C1_threshold_boundary as [_ Hrun].
  destruct (Hrun (hit "10.0.0.7" 0) (hit "10.0.0.7" 10000)
              (replicate 49 (hit "10.0.0.7" 5000))
              (initial_state quiet_disk) (IStr "10.0.0.7"))
    as (Hret & Hban & _).
  - reflexivity.
  - apply Forall_app. split.
    + apply Forall_replicate. split; [reflexivity|]. by vm_compute.
    + apply Forall_cons. split; [|apply Forall_nil; exact I].
      split; [reflexivity|]. by vm_compute.
  - reflexivity.
  - reflexivity.
  - reflexivity.
  - split; [exact Hret|exact Hban].
Defined.

(** C2. A request whose identity is in the ban set has its socket destroyed
    with the tracker, the ban set and the disk left exactly as they were:
    no entry is created, incremented, reset or refreshed. The same holds
    for any run of requests from that identity. *)
Theorem C2_ban_precedence :
  (∀ (req : request) (now : Z) (iso : string) (st : state) (ip : ident),
     getRealIP req = Return ip →
     Set_has (ident_val ip) (bannedIPs st) = true →
     let r := admission req now iso st in
     r.1 = Return SocketDestroyed ∧
     requestTracker r.2 = requestTracker st ∧
     bannedIPs r.2 = bannedIPs st ∧ disk r.2 = disk st) ∧
  (∀ (arrivals : list arrival) (st : state) (ip : ident),
     Forall (fun a => getRealIP (arr_req a) = Return ip) arrivals →
     Set_has (ident_val ip) (bannedIPs st) = true →
     let r := serve arrivals st in
     r.1 = Return (replicate (List.length arrivals) SocketDestroyed) ∧
     requestTracker r.2 = requestTracker st ∧
     bannedIPs r.2 = bannedIPs st ∧ disk r.2 = disk st).
Proof.
  split.
  - intros req now iso st ip Hip Hhas r. subst r.
    by rewrite (admission_banned req now iso st ip Hip Hhas).
  - intros arrivals st ip. apply serve_banned.
Qed.

Lemma C2_ban_precedence_witness :
  let r := serve [hit "6.6.6.6" 1000; hit "6.6.6.6" 70000] banned_with_entry in
  r.1 = Return [SocketDestroyed; SocketDestroyed] ∧
  requestTracker r.2 = requestTracker banned_with_entry.
Proof.
  destruct C2_ban_precedence as [_ Hrun].
  destruct (Hrun [hit "6.6.6.6" 1000; hit "6.6.6.6" 70000] banned_with_entry
              (IStr "6.6.6.6"))
    as (Hret & Htr & _).
  - repeat constructor.
  - reflexivity.
  - split; [exact Hret|exact Htr].
Defined.

(** ** The cleanup timer *)

Lemma sweep_lookup (now : Z) (banned : list jsval)
    (m : gmap ident tracker_entry) (ip : ident) :
  sweep now banned m !! ip =
    match m !! ip with
    | Some e =>
        if (now - lastRequest e >? STALE_AFTER)
           && negb (Set_has (ident_val ip) banned)
        then None else Some e
    | None => None
    end.
Proof.
  unfold sweep.
  set (f := fun (ip : ident) (tracker : tracker_entry)
                (acc : gmap ident tracker_entry) =>
              if (now - lastRequest tracker >? STALE_AFTER)
                 && negb (Set_has (ident_val ip) banned)
              then delete ip acc else acc).
  assert (∀ acc,
            map_fold f acc m !! ip =
              match m !! ip with
              | Some e =>
                  if (now - lastRequest e >? STALE_AFTER)
                     && negb (Set_has (ident_val ip) banned)
                  then None else acc !! ip
              | None => acc !! ip
              end) as Hgen.
  { intros acc.
    apply (map_fold_weak_ind
             (fun r m' =>
                r !! ip =
                  match m' !! ip with
                  | Some e =>
                      if (now - lastRequest e >? STALE_AFTER)
                         && negb (Set_has (ident_val ip) banned)
                      then None else acc !! ip
                  | None => acc !! ip
                  end)).
    - by rewrite lookup_empty.
    - intros i x m' r Hfresh IH. unfold f.
      destruct (decide (i = ip)) as [->|Hne].
      + rewrite lookup_insert_eq. rewrite Hfresh in IH.
        destruct ((now - lastRequest x >? STALE_AFTER)
                  && negb (Set_has (ident_val ip) banned)).
        * apply lookup_delete_eq.
        * exact IH.
      + rewrite lookup_insert_ne by done.
        destruct ((now - lastRequest x >? STALE_AFTER)
                  && negb (Set_has (ident_val i) banned)).
        * by rewrite lookup_delete_ne.
        * exact IH. }
  rewrite Hgen. destruct (m !! ip) as [e|]; [|done].
  by destruct ((now - lastRequest e >? STALE_AFTER)
               && negb (Set_has (ident_val ip) banned)).
Qed.

Lemma cleanup_run (now : Z) (st : state) :
  let r := cleanup now st in
  r.1 = Return tt ∧
  requestTracker r.2 = sweep now (bannedIPs st) (requestTracker st) ∧
  bannedIPs r.2 = bannedIPs st ∧ disk r.2 = disk st.
Proof. unfold cleanup. run_js. done. Qed.

(** C9. One pass of the cleanup at time [now] removes the entry of an
    identity exactly when its last request is more than the stale threshold
    (300000 ms) old and the identity is not banned: the entry of a banned
    identity stays whatever its age, a stale entry of an identity that is
    not banned goes, every entry that stays is unchanged, and nothing is
    added. The ban set (and the disk) are left as they were. *)
Theorem C9_reaper (now : Z) (st : state) :
  let r := cleanup now st in
  r.1 = Return tt ∧
  bannedIPs r.2 = bannedIPs st ∧ disk r.2 = disk st ∧
  (∀ ip e, requestTracker st !! ip = Some e →
     (requestTracker r.2 !! ip = None ↔ evicted now (bannedIPs st) ip e) ∧
     (¬ evicted now (bannedIPs st) ip e → requestTracker r.2 !! ip = Some e) ∧
     (Set_has (ident_val ip) (bannedIPs st) = true →
      requestTracker r.2 !! ip = Some e)) ∧
  (∀ ip, requestTracker st !! ip = None → requestTracker r.2 !! ip = None).
Proof.
  intros r. destruct (cleanup_run now st) as (Hret & Htr & Hset & Hdisk).
  fold r in Hret, Htr, Hset, Hdisk.
  split; [done|]. split; [done|]. split; [done|]. rewrite Htr. split.
  - intros ip e Hold. rewrite sweep_lookup, Hold. unfold evicted.
    destruct (Z.gtb_spec (now - lastRequest e) STALE_AFTER) as [Hstale|Hfresh];
      destruct (Set_has (ident_val ip) (bannedIPs st)); simpl;
      (split; [split; [try done; intros ?; split; (done || lia)
                      |try done; intros [? ?]; (done || lia)]
              |split; [intros Hne; try done; destruct Hne; by split|done]]).
  - intros ip Hnone. by rewrite sweep_lookup, Hnone.
Qed.

Lemma C9_reaper_witness :
  let r := cleanup 500000 three_entries in
  requestTracker r.2 !! IStr "6.6.6.6" =
    Some {| count := 51; firstRequest := 0; lastRequest := 900 |} ∧
  requestTracker r.2 !! IStr "7.7.7.7" = None ∧
  bannedIPs r.2 = bannedIPs three_entries.
Proof.
  destruct (C9_reaper 500000 three_entries) as (_ & Hset & _ & Hentries & _).
  destruct (Hentries (IStr "6.6.6.6")
              {| count := 51; firstRequest := 0; lastRequest := 900 |} eq_refl)
    as (_ & _ & Hkept).
  destruct (Hentries (IStr "7.7.7.7")
              {| count := 3; firstRequest := 0; lastRequest := 900 |} eq_refl)
    as (Hgone & _).
  split; [apply Hkept; reflexivity|].
  split; [apply Hgone; split; [by vm_compute|reflexivity]|exact Hset].
Defined.

(** ** Unbanning *)

Lemma admin_unban_absent (x iso : string) (st : state) :
  Set_has (Json (JStr x)) (bannedIPs st) = false →
  admin_unban x iso st =
    (Return {| success := false;
               message := "IP " ++ x ++ " is not banned" |}, st).
Proof. intros Hhas. unfold admin_unban. run_js. by rewrite Hhas. Qed.

Lemma admin_unban_present (x iso : string) (st : state) :
  Set_has (Json (JStr x)) (bannedIPs st) = true →
  let r := admin_unban x iso st in
  r.1 = Return {| success := true;
                  message := "IP " ++ x ++ " has been unbanned" |} ∧
  requestTracker r.2 = requestTracker st ∧
  bannedIPs r.2 = Set_delete (Json (JStr x)) (bannedIPs st) ∧
  fs_write_calls (disk r.2) = S (fs_write_calls (disk st)) ∧
  fs_file (disk r.2) =
    if fs_writable (disk st)
    then Some (JSON_stringify
                 {| ips := Set_delete (Json (JStr x)) (bannedIPs st);
                    lastUpdated := iso;
                    totalBanned :=
                      List.length (Set_delete (Json (JStr x)) (bannedIPs st)) |})
    else fs_file (disk st).
Proof.
  intros Hhas. unfold admin_unban. run_js. rewrite Hhas. simpl.
  by destruct (fs_writable (disk st)).
Qed.

Lemma admin_unban_clears (x iso : string) (st : state) :
  let r := admin_unban x iso st in
  requestTracker r.2 = requestTracker st ∧
  Set_has (Json (JStr x)) (bannedIPs r.2) = false.
Proof.
  intros r. subst r.
  destruct (Set_has (Json (JStr x)) (bannedIPs st)) eqn:Hhas.
  - destruct (admin_unban_present x iso st Hhas) as (_ & Htr & Hset & _).
    split; [done|]. rewrite Hset. apply Set_has_delete_same.
  - by rewrite (admin_unban_absent x iso st Hhas).
Qed.

(** C10. The unban route changes the ban set and the file only: the whole
    tracker, and with it the entry of the unbanned identity (count, window
    start, last request), is as before. Hence, when that entry still has a
    count of at least [REQUEST_LIMIT], the next request of the identity no
    later than [TIME_WINDOW] after the entry's window start raises the count
    by one, bans the identity again and has its socket destroyed. *)
Theorem C10_unban_keeps_entry (x iso : string) (st : state) :
  let r := admin_unban x iso st in
  requestTracker r.2 = requestTracker st ∧
  (Set_has (Json (JStr x)) (bannedIPs st) = true →
   (∃ m, r.1 = Return {| success := true; message := m |}) ∧
   bannedIPs r.2 = Set_delete (Json (JStr x)) (bannedIPs st) ∧
   Set_has (Json (JStr x)) (bannedIPs r.2) = false ∧
   fs_write_calls (disk r.2) = S (fs_write_calls (disk st))) ∧
  (∀ (req : request) (now : Z) (iso' : string) (e : tracker_entry),
     getRealIP req = Return (IStr x) →
     requestTracker st !! IStr x = Some e →
     (REQUEST_LIMIT ≤ count e)%Z →
     (now - firstRequest e ≤ TIME_WINDOW)%Z →
     let r' := admission req now iso' r.2 in
     r'.1 = Return SocketDestroyed ∧
     Set_has (Json (JStr x)) (bannedIPs r'.2) = true ∧
     requestTracker r'.2 !! IStr x =
       Some {| count := count e + 1; firstRequest := firstRequest e;
               lastRequest := now |}).
Proof.
  intros r. destruct (admin_unban_clears x iso st) as [Htr Hclear].
  fold r in Htr, Hclear. split; [done|]. split.
  - intros Hhas.
    destruct (admin_unban_present x iso st Hhas) as (Hret & _ & Hset & Hcalls & _).
    fold r in Hret, Hset, Hcalls. split; [by eexists|]. by repeat split.
  - intros req now iso' e Hip Hold Hcount Hin r'.
    destruct (admission_exceeded req now iso' r.2 (IStr x) e Hip Hclear)
      as (Hret & Htr' & Hset & _); [by rewrite Htr|done|lia|].
    fold r' in Hret, Htr', Hset. split; [done|]. split.
    + rewrite Hset, Set_has_app. simpl.
      by rewrite String.eqb_refl, Bool.orb_true_r.
    + rewrite Htr'. apply lookup_insert_eq.
Qed.

Lemma C10_unban_keeps_entry_witness :
  let r := admin_unban "6.6.6.6" "t1" banned_with_entry in
  let r' := admission (from_peer "6.6.6.6") 60000 "t2" r.2 in
  requestTracker r.2 = requestTracker banned_with_entry ∧
  Set_has (Json (JStr "6.6.6.6")) (bannedIPs r.2) = false ∧
  r'.1 = Return SocketDestroyed ∧
  Set_has (Json (JStr "6.6.6.6")) (bannedIPs r'.2) = true.
Proof.
  destruct (C10_unban_keeps_entry "6.6.6.6" "t1" banned_with_entry)
    as (Htr & Hunban & Hnext).
  destruct (Hunban eq_refl) as (_ & _ & Hclear & _).
  destruct (Hnext (from_peer "6.6.6.6") 60000 "t2"
              {| count := 51; firstRequest := 0; lastRequest := 900 |})
    as (Hret & Hban & _).
  - reflexivity.
  - reflexivity.
  - by vm_compute.
  - by vm_compute.
  - split; [exact Htr|]. split; [exact Hclear|].
    split; [exact Hret|exact Hban].
Defined.

(** ** The ban set stays a set *)

Lemma Set_has_delete_absent (x y : jsval) (s : list jsval) :
  Set_has y s = false → Set_has y (Set_delete x s) = false.
Proof.
  unfold Set_has, Set_delete. induction s as [|z s IH]; [done|]. simpl.
  intros Hy. apply Bool.orb_false_iff in Hy as [Hz Hs].
  destruct (same_value_zero x z); simpl; [by apply IH|].
  rewrite Hz. by apply IH.
Qed.

Lemma Set_wf_delete (x : jsval) (s : list jsval) :
  Set_wf s → Set_wf (Set_delete x s).
Proof.
  induction s as [|y s IH]; [done|]. intros [Hy Hwf].
  unfold Set_delete. simpl. fold (Set_delete x s).
  destruct (same_value_zero x y); simpl; [by apply IH|].
  split; [by apply Set_has_delete_absent|by apply IH].
Qed.

Lemma new_Set_wf (v : jsval) (s : list jsval) :
  new_Set v = Return s → Set_wf s.
Proof.
  destruct v as [|[]]; simpl; intros [= <-]; try done;
    by apply (Set_of_list_from _ []).
Qed.

Lemma loadBannedIPs_wf (iso : string) (st : state) :
  Set_wf (bannedIPs st) → Set_wf (bannedIPs (loadBannedIPs iso st).2).
Proof.
  intros Hwf. unfold loadBannedIPs. run_js.
  destruct (fs_file (disk st)) as [t|] eqn:Hfile; simpl;
    repeat (rewrite Hfile; simpl).
  - destruct (fs_readable (disk st)); [|done]. simpl.
    destruct (JSON_parse t) as [doc|e]; [|done]. simpl.
    destruct (get_ips doc) as [field|e]; [|done]. simpl.
    destruct (new_Set (or_empty_array field)) as [s|e] eqn:Hset; [|done].
    simpl. by apply (new_Set_wf _ _ Hset).
  - by destruct (fs_writable (disk st)).
Qed.

Lemma banIP_wf (ip : ident) (iso : string) (st : state) :
  Set_wf (bannedIPs st) → Set_wf (bannedIPs (banIP ip iso st).2).
Proof.
  intros Hwf. destruct (Set_has (ident_val ip) (bannedIPs st)) eqn:Hhas.
  - by rewrite (banIP_banned ip iso st Hhas).
  - destruct (banIP_fresh ip iso st Hhas) as (_ & _ & -> & _).
    by apply Set_wf_snoc.
Qed.

Lemma admin_unban_wf (x iso : string) (st : state) :
  Set_wf (bannedIPs st) → Set_wf (bannedIPs (admin_unban x iso st).2).
Proof.
  intros Hwf. destruct (Set_has (Json (JStr x)) (bannedIPs st)) eqn:Hhas.
  - destruct (admin_unban_present x iso st Hhas) as (_ & _ & -> & _).
    by apply Set_wf_delete.
  - by rewrite (admin_unban_absent x iso st Hhas).
Qed.

Lemma admission_wf (req : request) (now : Z) (iso : string) (st : state) :
  Set_wf (bannedIPs st) → Set_wf (bannedIPs (admission req now iso st).2).
Proof.
  intros Hwf. destruct (getRealIP_returns req) as [ip Hip].
  destruct (Set_has (ident_val ip) (bannedIPs st)) eqn:Hhas.
  { by rewrite (admission_banned req now iso st ip Hip Hhas). }
  destruct (requestTracker st !! ip) as [e|] eqn:Hold.
  2: { by rewrite (admission_new req now iso st ip Hip Hhas Hold). }
  destruct (Z_le_gt_dec (now - firstRequest e) TIME_WINDOW) as [Hin|Hexp].
  2: { rewrite (admission_expired req now iso st ip e Hip Hhas Hold); [done|lia]. }
  destruct (Z_le_gt_dec (count e + 1) REQUEST_LIMIT) as [Hle|Hgt].
  - destruct (admission_counted req now iso st ip e Hip Hhas Hold Hin Hle)
      as (_ & _ & -> & _). done.
  - destruct (admission_exceeded req now iso st ip e Hip Hhas Hold Hin
                ltac:(lia)) as (_ & _ & -> & _).
    by apply Set_wf_snoc.
Qed.

(** The middleware never raises, whatever the request. *)
Lemma admission_returns (req : request) (now : Z) (iso : string) (st : state) :
  ∃ d, (admission req now iso st).1 = Return d.
Proof.
  destruct (getRealIP_returns req) as [ip Hip].
  destruct (Set_has (ident_val ip) (bannedIPs st)) eqn:Hhas.
  { rewrite (admission_banned req now iso st ip Hip Hhas). by eexists. }
  destruct (requestTracker st !! ip) as [e|] eqn:Hold.
  2: { rewrite (admission_new req now iso st ip Hip Hhas Hold). by eexists. }
  destruct (Z_le_gt_dec (now - firstRequest e) TIME_WINDOW) as [Hin|Hexp].
  2: { rewrite (admission_expired req now iso st ip e Hip Hhas Hold);
         [by eexists|lia]. }
  destruct (Z_le_gt_dec (count e + 1) REQUEST_LIMIT) as [Hle|Hgt].
  - destruct (admission_counted req now iso st ip e Hip Hhas Hold Hin Hle)
      as (-> & _). by eexists.
  - destruct (admission_exceeded req now iso st ip e Hip Hhas Hold Hin
                ltac:(lia)) as (-> & _). by eexists.
Qed.

(** * Further properties of the code *)

(** ** What one request can do *)

(** The five ways through the middleware. *)
Lemma admission_cases (req : request) (now : Z) (iso : string) (st : state) :
  ∃ ip, getRealIP req = Return ip ∧
    let r := admission req now iso st in
    (Set_has (ident_val ip) (bannedIPs st) = true ∧
     r = (Return SocketDestroyed, log (LogBlocked ip) st)) ∨
    (Set_has (ident_val ip) (bannedIPs st) = false ∧
     (requestTracker st !! ip = None ∨
      ∃ e, requestTracker st !! ip = Some e ∧
           TIME_WINDOW < now - firstRequest e) ∧
     r = (Return NextCalled, store_entry ip (opened now) st)) ∨
    (Set_has (ident_val ip) (bannedIPs st) = false ∧
     ∃ e, requestTracker st !! ip = Some e ∧
          (now - firstRequest e ≤ TIME_WINDOW)%Z ∧
          (count e + 1 ≤ REQUEST_LIMIT)%Z ∧
          r.1 = Return NextCalled ∧
          requestTracker r.2 = <[ip := bumped e now]> (requestTracker st) ∧
          bannedIPs r.2 = bannedIPs st ∧ disk r.2 = disk st) ∨
    (Set_has (ident_val ip) (bannedIPs st) = false ∧
     ∃ e, requestTracker st !! ip = Some e ∧
          (now - firstRequest e ≤ TIME_WINDOW)%Z ∧
          REQUEST_LIMIT < count e + 1 ∧
          r.1 = Return SocketDestroyed ∧
          requestTracker r.2 = <[ip := bumped e now]> (requestTracker st) ∧
          bannedIPs r.2 = (bannedIPs st ++ [ident_val ip])%list ∧
          fs_write_calls (disk r.2) = S (fs_write_calls (disk st))).
Proof.
  destruct (getRealIP_returns req) as [ip Hip]. exists ip. split; [done|].
  cbv zeta.
  destruct (Set_has (ident_val ip) (bannedIPs st)) eqn:Hhas.
  { left. split; [done|]. by apply admission_banned. }
  right. destruct (requestTracker st !! ip) as [e|] eqn:Hold.
  2: { left. split; [done|]. split; [by left|]. by apply admission_new. }
  destruct (Z_le_gt_dec (now - firstRequest e) TIME_WINDOW) as [Hin|Hexp].
  2: { left. split; [done|]. split; [right; exists e; split; [done|lia]|].
       apply (admission_expired req now iso st ip e); [done|done|done|lia]. }
  right. destruct (Z_le_gt_dec (count e + 1) REQUEST_LIMIT) as [Hle|Hgt].
  - left. split; [done|]. exists e.
    destruct (admission_counted req now iso st ip e Hip Hhas Hold Hin Hle)
      as (? & ? & ? & ?). by repeat split.
  - right. split; [done|]. exists e.
    destruct (admission_exceeded req now iso st ip e Hip Hhas Hold Hin
                ltac:(lia)) as (? & ? & ? & ? & _).
    repeat split; try done. lia.
Qed.

Lemma Set_has_snoc_ident (ip : ident) (s : list jsval) :
  Set_has (ident_val ip) (s ++ [ident_val ip])%list = true.
Proof.
  rewrite Set_has_app. simpl.
  by rewrite same_value_zero_ident, Bool.orb_true_r.
Qed.

(** X1. The middleware never raises, and it destroys the socket exactly
    when the client is banned once the request has been handled: a request
    that is passed on comes from a client that is not banned and leaves the
    ban set as it was. *)
Theorem admission_destroys_iff_banned (req : request) (now : Z) (iso : string)
    (st : state) :
  ∃ ip, getRealIP req = Return ip ∧
    let r := admission req now iso st in
    (r.1 = Return SocketDestroyed ∧
     Set_has (ident_val ip) (bannedIPs r.2) = true) ∨
    (r.1 = Return NextCalled ∧
     Set_has (ident_val ip) (bannedIPs r.2) = false ∧
     bannedIPs r.2 = bannedIPs st ∧ disk r.2 = disk st).
Proof.
  destruct (admission_cases req now iso st) as (ip & Hip & Hcases).
  exists ip. split; [done|]. cbv zeta in *.
  destruct Hcases as [[Hhas ->]|[(Hhas & _ & ->)|[(Hhas & e & _ & _ & _ & Hret & _ & Hset & Hdisk)
                     |(Hhas & e & _ & _ & _ & Hret & _ & Hset & _)]]].
  - by left.
  - right. by repeat split.
  - right. rewrite Hset. by repeat split.
  - left. split; [done|]. rewrite Hset. apply Set_has_snoc_ident.
Qed.

(** X2. A request changes nothing for other identities: their tracker
    entries stay as they were, nobody who was banned stops being banned, and
    the only identity that can become banned is the one the request
    resolves to. *)
Theorem admission_frame (req : request) (now : Z) (iso : string) (st : state) :
  ∃ ip, getRealIP req = Return ip ∧
    let r := admission req now iso st in
    (∀ ip', ip' ≠ ip →
       requestTracker r.2 !! ip' = requestTracker st !! ip') ∧
    (∀ x, Set_has x (bannedIPs st) = true →
          Set_has x (bannedIPs r.2) = true) ∧
    (∀ x, same_value_zero x (ident_val ip) = false →
          Set_has x (bannedIPs r.2) = Set_has x (bannedIPs st)).
Proof.
  destruct (admission_cases req now iso st) as (ip & Hip & Hcases).
  exists ip. split; [done|]. cbv zeta in *.
  destruct Hcases as [[Hhas ->]|[(Hhas & _ & ->)|[(Hhas & e & _ & _ & _ & _ & Htr & Hset & _)
                     |(Hhas & e & _ & _ & _ & _ & Htr & Hset & _)]]]; simpl.
  - by repeat split.
  - split; [|by split]. intros ip' Hne. by apply lookup_insert_ne.
  - rewrite Htr, Hset. split; [|by split].
    intros ip' Hne. by apply lookup_insert_ne.
  - rewrite Htr, Hset. split; [|split].
    + intros ip' Hne. by apply lookup_insert_ne.
    + intros x Hx. by rewrite Set_has_app, Hx.
    + intros x Hx. rewrite Set_has_app. simpl.
      by rewrite Hx, !Bool.orb_false_r.
Qed.

(** ** Invariants of the tracker *)

Lemma counts_ok_initial (d : filesystem) : counts_ok (initial_state d).
Proof. intros ip e Hlook. simpl in Hlook. by rewrite lookup_empty in Hlook. Qed.

Lemma admission_counts_ok (req : request) (now : Z) (iso : string) (st : state) :
  counts_ok st → counts_ok (admission req now iso st).2.
Proof.
  intros Hok. destruct (admission_cases req now iso st) as (ip & Hip & Hcases).
  cbv zeta in *. unfold counts_ok, REQUEST_LIMIT in *.
  destruct Hcases as [[Hhas ->]|[(Hhas & _ & ->)|[(Hhas & e & Hold & _ & Hle & _ & Htr & Hset & _)
                     |(Hhas & e & Hold & _ & Hgt & _ & Htr & Hset & _)]]];
    simpl; intros ip' e'.
  - apply Hok.
  - destruct (decide (ip' = ip)) as [->|Hne].
    + rewrite lookup_insert_eq. intros [= <-]. simpl. split; lia.
    + rewrite lookup_insert_ne by done. apply Hok.
  - rewrite Htr, Hset. destruct (decide (ip' = ip)) as [->|Hne].
    + rewrite lookup_insert_eq. intros [= <-]. simpl.
      destruct (Hok ip e Hold) as [Hrange _]. split; lia.
    + rewrite lookup_insert_ne by done. apply Hok.
  - rewrite Htr, Hset. destruct (decide (ip' = ip)) as [->|Hne].
    + rewrite lookup_insert_eq. intros [= <-]. simpl.
      destruct (Hok ip e Hold) as [Hrange Hbanned].
      assert (count e ≤ 50)%Z.
      { destruct (Z_le_gt_dec (count e) 50) as [?|Hover]; [done|].
        rewrite Hbanned in Hhas by lia. discriminate. }
      split; [lia|]. intros _. apply Set_has_snoc_ident.
    + rewrite lookup_insert_ne by done. intros Hlook.
      destruct (Hok ip' e' Hlook) as [Hrange Hbanned]. split; [done|].
      intros Hover. by rewrite Set_has_app, Hbanned.
Qed.

Lemma cleanup_counts_ok (now : Z) (st : state) :
  counts_ok st → counts_ok (cleanup now st).2.
Proof.
  intros Hok ip e. destruct (cleanup_run now st) as (_ & -> & -> & _).
  rewrite sweep_lookup. destruct (requestTracker st !! ip) as [e0|] eqn:Hold;
    [|done].
  destruct ((now - lastRequest e0 >? STALE_AFTER)
            && negb (Set_has (ident_val ip) (bannedIPs st))); [done|].
  intros [= <-]. by apply Hok.
Qed.

(** ** Who gets through *)

Lemma serve_spaced (arrivals : list arrival) :
  ∀ (st : state) (ip : ident) (e : tracker_entry),
    spaced ip (firstRequest e) arrivals →
    Set_has (ident_val ip) (bannedIPs st) = false →
    requestTracker st !! ip = Some e →
    let r := serve arrivals st in
    r.1 = Return (replicate (List.length arrivals) NextCalled) ∧
    bannedIPs r.2 = bannedIPs st ∧ disk r.2 = disk st ∧
    (arrivals ≠ [] →
     ∃ e', requestTracker r.2 !! ip = Some e' ∧ count e' = 1).
Proof.
  induction arrivals as [|a rest IH]; intros st ip e Hsp Hhas Hold.
  - by repeat split.
  - destruct Hsp as (Hip & Hgap & Hrest). cbv zeta. rewrite serve_cons.
    rewrite (admission_expired _ _ (arr_iso a) st ip e Hip Hhas Hold Hgap).
    destruct (IH (store_entry ip (opened (arr_now a)) st) ip
                (opened (arr_now a)) Hrest Hhas)
      as (Hret & Hset & Hdisk & Hlast); [apply lookup_insert_eq|].
    fold (opened (arr_now a)).
    destruct (serve rest (store_entry ip (opened (arr_now a)) st))
      as [o st1] eqn:Hrun.
    simpl in Hret, Hset, Hdisk, Hlast. subst o. simpl.
    split; [done|]. split; [done|]. split; [done|]. intros _.
    destruct rest as [|b rest'].
    + simpl in Hrun. injection Hrun as <-. exists (opened (arr_now a)).
      split; [apply lookup_insert_eq|done].
    + by apply Hlast.
Qed.

(** X4. A client seen for the first time that sends its requests more than
    [TIME_WINDOW] apart is never banned, however many requests it sends:
    every request is passed on, the ban set and the disk stay as they were,
    and its count is 1 at the end. *)
Theorem slow_client_never_banned (first : arrival) (rest : list arrival)
    (st : state) (ip : ident) :
  getRealIP (arr_req first) = Return ip →
  Set_has (ident_val ip) (bannedIPs st) = false →
  requestTracker st !! ip = None →
  spaced ip (arr_now first) rest →
  let r := serve (first :: rest) st in
  r.1 = Return (replicate (S (List.length rest)) NextCalled) ∧
  bannedIPs r.2 = bannedIPs st ∧ disk r.2 = disk st ∧
  ∃ e, requestTracker r.2 !! ip = Some e ∧ count e = 1.
Proof.
  intros Hip Hhas Hnew Hsp. cbv zeta. rewrite serve_cons.
  rewrite (admission_new _ _ _ st ip Hip Hhas Hnew).
  fold (opened (arr_now first)).
  destruct (serve_spaced rest (store_entry ip (opened (arr_now first)) st) ip
              (opened (arr_now first)) Hsp Hhas)
    as (Hret & Hset & Hdisk & Hlast); [apply lookup_insert_eq|].
  destruct (serve rest (store_entry ip (opened (arr_now first)) st))
    as [o st1] eqn:Hrun.
  simpl in Hret, Hset, Hdisk, Hlast. subst o. simpl.
  split; [done|]. split; [done|]. split; [done|].
  destruct rest as [|b rest'].
  - simpl in Hrun. injection Hrun as <-. exists (opened (arr_now first)).
    split; [apply lookup_insert_eq|done].
  - by apply Hlast.
Qed.

Lemma slow_client_never_banned_witness :
  let r := serve [hit "10.0.0.7" 0; hit "10.0.0.7" 60001; hit "10.0.0.7" 120002]
                 (initial_state quiet_disk) in
  r.1 = Return [NextCalled; NextCalled; NextCalled] ∧
  bannedIPs r.2 = [].
Proof.
  destruct (slow_client_never_banned (hit "10.0.0.7" 0)
              [hit "10.0.0.7" 60001; hit "10.0.0.7" 120002]
              (initial_state quiet_disk) (IStr "10.0.0.7"))
    as (Hret & Hset & _).
  - reflexivity.
  - reflexivity.
  - reflexivity.
  - simpl. repeat split; reflexivity.
  - split; [exact Hret|exact Hset].
Defined.

(** X5. The window tumbles, so a client can get twice the limit through in
    little more than one window: a batch of up to [REQUEST_LIMIT] requests
    inside one window, followed by a batch of up to [REQUEST_LIMIT] whose
    first request comes more than [TIME_WINDOW] after the first of all, is
    passed on in full and bans nobody. *)
Theorem double_burst_admitted (first1 first2 : arrival)
    (early1 early2 : list arrival) (st : state) (ip : ident) :
  getRealIP (arr_req first1) = Return ip →
  getRealIP (arr_req first2) = Return ip →
  Forall (in_window ip (arr_now first1)) early1 →
  Forall (in_window ip (arr_now first2)) early2 →
  TIME_WINDOW < arr_now first2 - arr_now first1 →
  (Z.of_nat (S (List.length early1)) ≤ REQUEST_LIMIT)%Z →
  (Z.of_nat (S (List.length early2)) ≤ REQUEST_LIMIT)%Z →
  Set_has (ident_val ip) (bannedIPs st) = false →
  requestTracker st !! ip = None →
  let r := serve ((first1 :: early1) ++ first2 :: early2)%list st in
  r.1 = Return (replicate (S (List.length early1) + S (List.length early2))
                          NextCalled) ∧
  bannedIPs r.2 = bannedIPs st ∧
  ∃ e, requestTracker r.2 !! ip = Some e ∧
       count e = Z.of_nat (S (List.length early2)).
Proof.
  intros Hip1 Hip2 Hin1 Hin2 Hgap Hlen1 Hlen2 Hhas Hnew. cbv zeta.
  rewrite serve_app, serve_cons.
  rewrite (admission_new _ _ _ st ip Hip1 Hhas Hnew).
  destruct (serve_admitted early1 (store_entry ip (opened (arr_now first1)) st)
              ip (opened (arr_now first1)) Hin1 Hhas)
    as (Hret1 & Hset1 & _ & e1 & He1 & _ & Hfirst1);
    [apply lookup_insert_eq|simpl; lia|].
  fold (opened (arr_now first1)).
  destruct (serve early1 (store_entry ip (opened (arr_now first1)) st))
    as [o st1].
  simpl in Hret1, Hset1, He1, Hfirst1. subst o.
  rewrite serve_cons.
  rewrite (admission_expired _ _ (arr_iso first2) st1 ip e1 Hip2);
    [|by rewrite Hset1|done|by rewrite Hfirst1].
  destruct (serve_admitted early2 (store_entry ip (opened (arr_now first2)) st1)
              ip (opened (arr_now first2)) Hin2)
    as (Hret2 & Hset2 & _ & e2 & He2 & Hcount2 & _);
    [by simpl; rewrite Hset1|apply lookup_insert_eq|simpl; lia|].
  fold (opened (arr_now first2)).
  destruct (serve early2 (store_entry ip (opened (arr_now first2)) st1))
    as [o st2].
  simpl in Hret2, Hset2, He2, Hcount2. subst o. simpl.
  split.
  - f_equal. f_equal. rewrite <- replicate_S, <- replicate_add.
    f_equal; lia.
  - split; [congruence|]. exists e2. split; [done|]. lia.
Qed.

Lemma double_burst_admitted_witness :
  let r := serve ((hit "10.0.0.7" 0 :: replicate 49 (hit "10.0.0.7" 59000)) ++
                  hit "10.0.0.7" 60001 :: replicate 49 (hit "10.0.0.7" 61000))%list
                 (initial_state quiet_disk) in
  r.1 = Return (replicate 100 NextCalled) ∧ bannedIPs r.2 = [].
Proof.
  destruct (double_burst_admitted (hit "10.0.0.7" 0) (hit "10.0.0.7" 60001)
              (replicate 49 (hit "10.0.0.7" 59000))
              (replicate 49 (hit "10.0.0.7" 61000))
              (initial_state quiet_disk) (IStr "10.0.0.7"))
    as (Hret & Hset & _).
  - reflexivity.
  - reflexivity.
  - apply Forall_replicate. split; [reflexivity|]. by vm_compute.
  - apply Forall_replicate. split; [reflexivity|]. by vm_compute.
  - by vm_compute.
  - by vm_compute.
  - by vm_compute.
  - reflexivity.
  - reflexivity.
  - split; [exact Hret|exact Hset].
Defined.

(** ** More on the cleanup timer *)

Lemma sweep_subseteq (now : Z) (banned : list jsval)
    (m : gmap ident tracker_entry) :
  sweep now banned m ⊆ m.
Proof.
  apply map_subseteq_spec. intros ip e. rewrite sweep_lookup.
  destruct (m !! ip) as [e0|]; [|done].
  by destruct ((now - lastRequest e0 >? STALE_AFTER)
               && negb (Set_has (ident_val ip) banned)).
Qed.

Lemma sweep_later (now now' : Z) (banned : list jsval)
    (m : gmap ident tracker_entry) :
  (now ≤ now')%Z →
  sweep now' banned (sweep now banned m) = sweep now' banned m.
Proof.
  intros Hle. apply map_eq. intros ip. rewrite !sweep_lookup.
  destruct (m !! ip) as [e|]; [|done].
  destruct (Set_has (ident_val ip) banned); simpl.
  - by rewrite !Bool.andb_false_r.
  - rewrite !Bool.andb_true_r.
    destruct (Z.gtb_spec (now - lastRequest e) STALE_AFTER) as [Hold|Hyoung].
    + by destruct (Z.gtb_spec (now' - lastRequest e) STALE_AFTER); [|lia].
    + by rewrite Bool.andb_true_r.
Qed.

(** X6. A cleanup pass only shrinks the tracker, and a pass at a later time
    makes an earlier one redundant: running both leaves the tracker that
    the later pass alone leaves. In particular a pass repeated at the same
    time changes nothing further. *)
Theorem cleanup_later_pass_subsumes (now now' : Z) (st : state) :
  (now ≤ now')%Z →
  let once := (cleanup now st).2 in
  requestTracker once ⊆ requestTracker st ∧
  (size (requestTracker once) ≤ size (requestTracker st))%nat ∧
  requestTracker (cleanup now' once).2 = requestTracker (cleanup now' st).2 ∧
  requestTracker (cleanup now once).2 = requestTracker once.
Proof.
  intros Hle once. subst once.
  destruct (cleanup_run now st) as (_ & Htr & Hset & _).
  destruct (cleanup_run now' st) as (_ & Htr' & _).
  destruct (cleanup_run now' (cleanup now st).2) as (_ & Htr2 & _).
  destruct (cleanup_run now (cleanup now st).2) as (_ & Htr3 & _).
  rewrite Htr2, Htr3, Htr', Hset, Htr.
  split; [apply sweep_subseteq|].
  split; [apply map_subseteq_size, sweep_subseteq|].
  split; [by apply sweep_later|]. by apply sweep_later.
Qed.

Lemma cleanup_later_pass_subsumes_witness :
  requestTracker (cleanup 900000 (cleanup 500000 three_entries).2).2 =
  requestTracker (cleanup 900000 three_entries).2.
Proof.
  destruct (cleanup_later_pass_subsumes 500000 900000 three_entries)
    as (_ & _ & Heq & _); [by vm_compute|].
  exact Heq.
Defined.

(** X7. Eviction cannot be observed by the client: with a clock that does
    not run backwards and an entry whose window start is not after its last
    request, a request handled after a cleanup pass gets the same
    disposition, leaves the same entry for its identity and the same ban
    set as it would have without the pass. *)
Theorem cleanup_unobservable (req : request) (s t : Z) (iso : string)
    (st : state) (ip : ident) :
  getRealIP req = Return ip →
  (s ≤ t)%Z →
  (∀ e, requestTracker st !! ip = Some e →
        (firstRequest e ≤ lastRequest e)%Z) →
  let swept := admission req t iso (cleanup s st).2 in
  let plain := admission req t iso st in
  swept.1 = plain.1 ∧
  requestTracker swept.2 !! ip = requestTracker plain.2 !! ip ∧
  bannedIPs swept.2 = bannedIPs plain.2.
Proof.
  intros Hip Hst Horder. cbv zeta.
  destruct (cleanup_run s st) as (_ & Htr & Hset & _).
  remember (cleanup s st).2 as st' eqn:Hst'. clear Hst'.
  assert (requestTracker st' !! ip =
            match requestTracker st !! ip with
            | Some e =>
                if (s - lastRequest e >? STALE_AFTER)
                   && negb (Set_has (ident_val ip) (bannedIPs st))
                then None else Some e
            | None => None
            end) as Hlook by (rewrite Htr; apply sweep_lookup).
  destruct (Set_has (ident_val ip) (bannedIPs st)) eqn:Hhas.
  { rewrite (admission_banned req t iso st ip Hip Hhas).
    rewrite (admission_banned req t iso st' ip Hip) by (by rewrite Hset).
    simpl. split; [done|]. split; [|done]. rewrite Hlook.
    destruct (requestTracker st !! ip); [|done].
    by rewrite Bool.andb_false_r. }
  assert (Set_has (ident_val ip) (bannedIPs st') = false) as Hhas'
    by (by rewrite Hset).
  destruct (requestTracker st !! ip) as [e|] eqn:Hold.
  2: { rewrite (admission_new req t iso st ip Hip Hhas Hold).
       rewrite (admission_new req t iso st' ip Hip Hhas' Hlook).
       simpl. by rewrite !lookup_insert_eq. }
  simpl in Hlook. rewrite Bool.andb_true_r in Hlook.
  destruct (Z.gtb_spec (s - lastRequest e) STALE_AFTER) as [Hstale|Hfresh].
  { pose proof (Horder e eq_refl) as Hord. unfold STALE_AFTER in Hstale.
    rewrite (admission_new req t iso st' ip Hip Hhas' Hlook).
    rewrite (admission_expired req t iso st ip e Hip Hhas Hold)
      by (unfold TIME_WINDOW; lia).
    simpl. by rewrite !lookup_insert_eq. }
  destruct (Z_le_gt_dec (t - firstRequest e) TIME_WINDOW) as [Hin|Hexp].
  2: { rewrite (admission_expired req t iso st ip e Hip Hhas Hold) by lia.
       rewrite (admission_expired req t iso st' ip e Hip Hhas' Hlook) by lia.
       simpl. by rewrite !lookup_insert_eq. }
  destruct (Z_le_gt_dec (count e + 1) REQUEST_LIMIT) as [Hle|Hgt].
  - destruct (admission_counted req t iso st ip e Hip Hhas Hold Hin Hle)
      as (-> & -> & -> & _).
    destruct (admission_counted req t iso st' ip e Hip Hhas' Hlook Hin Hle)
      as (-> & -> & -> & _).
    by rewrite !lookup_insert_eq.
  - destruct (admission_exceeded req t iso st ip e Hip Hhas Hold Hin
                ltac:(lia)) as (-> & -> & -> & _).
    destruct (admission_exceeded req t iso st' ip e Hip Hhas' Hlook Hin
                ltac:(lia)) as (-> & -> & -> & _).
    by rewrite !lookup_insert_eq, Hset.
Qed.

Lemma cleanup_unobservable_witness :
  (admission (from_peer "7.7.7.7") 600000 "t"
     (cleanup 500000 three_entries).2).1 =
  (admission (from_peer "7.7.7.7") 600000 "t" three_entries).1.
Proof.
  destruct (cleanup_unobservable (from_peer "7.7.7.7") 500000 600000 "t"
              three_entries (IStr "7.7.7.7"))
    as (Heq & _).
  - reflexivity.
  - by vm_compute.
  - intros e He. vm_compute in He. injection He as <-. by vm_compute.
  - exact Heq.
Defined.

(** ** Bans across restarts *)

Lemma Set_of_list_has (x : jsval) (l : list jsval) :
  Set_has x (Set_of_list l) = Set_has x l.
Proof.
  unfold Set_of_list.
  destruct (Set_of_list_from l []) as (_ & Hhas & _). by rewrite Hhas.
Qed.

Lemma Set_of_list_length (l acc : list jsval) :
  (List.length (fold_left (fun s x => Set_add x s) l acc) ≤
   List.length acc + List.length l)%nat.
Proof.
  revert acc. induction l as [|x l IH]; intros acc; simpl; [lia|].
  specialize (IH (Set_add x acc)). unfold Set_add in *.
  destruct (Set_has x acc); [lia|].
  rewrite List.length_app in IH. simpl in IH. lia.
Qed.

(** A process started on a disk whose file is a saved record. *)
Lemma startup_on_record (d : filesystem) (iso : string) (data : ban_record) :
  fs_file d = Some (JSON_stringify data) →
  fs_readable d = true →
  let r := startup d iso in
  r.1 = Return tt ∧
  bannedIPs r.2 = Set_of_list (map Json (map json_of_element (ips data))) ∧
  disk r.2 = d.
Proof.
  intros Hfile Hread. unfold startup.
  destruct (loadBannedIPs_present iso (initial_state d)
              (JObj [ ("ips", JArr (map json_of_element (ips data)));
                      ("lastUpdated", JStr (lastUpdated data));
                      ("totalBanned", JNum (Z.of_nat (totalBanned data))) ])
              (Json (JArr (map json_of_element (ips data))))
              (Set_of_list (map Json (map json_of_element (ips data)))))
    as (Hret & Hset & _ & Hdisk); done.
Qed.

Lemma startup_keeps_strings (d : filesystem) (iso x : string)
    (data : ban_record) :
  fs_file d = Some (JSON_stringify data) →
  fs_readable d = true →
  Set_has (Json (JStr x)) (bannedIPs (startup d iso).2) =
  Set_has (Json (JStr x)) (ips data).
Proof.
  intros Hfile Hread.
  destruct (startup_on_record d iso data Hfile Hread) as (_ & -> & _).
  by rewrite Set_of_list_has, Set_has_string_saved.
Qed.

(** X8. A ban is durable from the moment it is made: when the disk accepts
    the write and the read, a process restarted after [banIP] has banned a
    new address (no shutdown hook having run) loads that address as banned,
    together with every address that was banned with it, and destroys the
    socket of its next request. *)
Theorem ban_survives_restart (x iso iso' : string) (st : state) :
  fs_writable (disk st) = true →
  fs_readable (disk st) = true →
  Set_has (Json (JStr x)) (bannedIPs st) = false →
  let st1 := (banIP (IStr x) iso st).2 in
  let r := startup (disk st1) iso' in
  r.1 = Return tt ∧
  Set_has (Json (JStr x)) (bannedIPs r.2) = true ∧
  (∀ y, Set_has (Json (JStr y)) (bannedIPs r.2) =
        Set_has (Json (JStr y)) (bannedIPs st1)) ∧
  (∀ req now iso2,
     getRealIP req = Return (IStr x) →
     (admission req now iso2 r.2).1 = Return SocketDestroyed).
Proof.
  intros Hw Hr Hhas st1 r.
  destruct (banIP_fresh (IStr x) iso st Hhas)
    as (_ & _ & Hset & _ & Hread & _ & Hfile).
  fold st1 in Hset, Hread, Hfile. rewrite Hw in Hfile. rewrite Hr in Hread.
  destruct (startup_on_record (disk st1) iso' _ Hfile Hread) as (Hret & _).
  fold r in Hret.
  assert (∀ y, Set_has (Json (JStr y)) (bannedIPs r.2) =
               Set_has (Json (JStr y)) (bannedIPs st1)) as Hsame.
  { intros y. subst r.
    rewrite (startup_keeps_strings (disk st1) iso' y _ Hfile Hread).
    simpl. by rewrite Hset. }
  assert (Set_has (Json (JStr x)) (bannedIPs r.2) = true) as Hx.
  { rewrite Hsame, Hset. apply (Set_has_snoc_ident (IStr x)). }
  split; [done|]. split; [done|]. split; [done|].
  intros req now iso2 Hip.
  by rewrite (admission_banned req now iso2 r.2 (IStr x) Hip Hx).
Qed.

Lemma ban_survives_restart_witness :
  Set_has (Json (JStr "6.6.6.6"))
    (bannedIPs
       (startup
          (disk (banIP (IStr "6.6.6.6") "t1" (initial_state quiet_disk)).2)
          "t2").2) = true.
Proof.
  destruct (ban_survives_restart "6.6.6.6" "t1" "t2" (initial_state quiet_disk))
    as (_ & Hx & _); [reflexivity|reflexivity|reflexivity|].
  exact Hx.
Defined.

(** X9. An unban is durable in the same way: after the route has unbanned a
    banned address on a disk that accepts the write and the read, a
    restarted process does not have that address in its ban set, and has
    every other banned address. *)
Theorem unban_survives_restart (x iso iso' : string) (st : state) :
  fs_writable (disk st) = true →
  fs_readable (disk st) = true →
  Set_has (Json (JStr x)) (bannedIPs st) = true →
  let st1 := (admin_unban x iso st).2 in
  let r := startup (disk st1) iso' in
  r.1 = Return tt ∧
  Set_has (Json (JStr x)) (bannedIPs r.2) = false ∧
  (∀ y, Set_has (Json (JStr y)) (bannedIPs r.2) =
        Set_has (Json (JStr y)) (bannedIPs st1)).
Proof.
  intros Hw Hr Hhas st1 r.
  destruct (admin_unban_present x iso st Hhas)
    as (_ & _ & Hset & _ & Hfile).
  fold st1 in Hset, Hfile. rewrite Hw in Hfile.
  assert (fs_readable (disk st1) = true) as Hread.
  { subst st1. unfold admin_unban. run_js. rewrite Hhas. simpl.
    by destruct (fs_writable (disk st)). }
  destruct (startup_on_record (disk st1) iso' _ Hfile Hread) as (Hret & _).
  fold r in Hret.
  assert (∀ y, Set_has (Json (JStr y)) (bannedIPs r.2) =
               Set_has (Json (JStr y)) (bannedIPs st1)) as Hsame.
  { intros y. subst r.
    rewrite (startup_keeps_strings (disk st1) iso' y _ Hfile Hread).
    simpl. by rewrite Hset. }
  split; [done|]. split; [|done].
  rewrite Hsame, Hset. apply Set_has_delete_same.
Qed.

Lemma unban_survives_restart_witness :
  Set_has (Json (JStr "6.6.6.6"))
    (bannedIPs
       (startup (disk (admin_unban "6.6.6.6" "t1" already_banned).2) "t2").2)
  = false.
Proof.
  destruct (unban_survives_restart "6.6.6.6" "t1" "t2" already_banned)
    as (_ & Hx & _); [reflexivity|reflexivity|reflexivity|].
  exact Hx.
Defined.

(** X10. A refused write does not undo a ban. When the disk refuses the
    write, [banIP] still returns normally with the address banned in
    memory, the file is left as it was, and the next request of that
    address has its socket destroyed; but the ban is not on disk, so a
    process restarted with no file starts with an empty ban set. *)
Theorem refused_write_keeps_ban (ip : ident) (iso : string) (st : state) :
  fs_writable (disk st) = false →
  Set_has (ident_val ip) (bannedIPs st) = false →
  let r := banIP ip iso st in
  r.1 = Return tt ∧
  Set_has (ident_val ip) (bannedIPs r.2) = true ∧
  fs_file (disk r.2) = fs_file (disk st) ∧
  (∀ req now iso2,
     getRealIP req = Return ip →
     (admission req now iso2 r.2).1 = Return SocketDestroyed) ∧
  (fs_file (disk st) = None →
   ∀ iso', bannedIPs (startup (disk r.2) iso').2 = []).
Proof.
  intros Hw Hhas r.
  destruct (banIP_fresh ip iso st Hhas)
    as (Hret & _ & Hset & _ & _ & Hw' & Hfile).
  fold r in Hret, Hset, Hw', Hfile. rewrite Hw in Hfile.
  assert (Set_has (ident_val ip) (bannedIPs r.2) = true) as Hbanned
    by (rewrite Hset; apply Set_has_snoc_ident).
  split; [done|]. split; [done|]. split; [done|]. split.
  - intros req now iso2 Hip.
    by rewrite (admission_banned req now iso2 r.2 ip Hip Hbanned).
  - intros Hnone iso'. unfold startup.
    destruct (loadBannedIPs_absent iso' (initial_state (disk r.2)))
      as (_ & Hempty & _); [simpl; congruence|].
    exact Hempty.
Qed.

Lemma refused_write_keeps_ban_witness :
  let r := banIP (IStr "6.6.6.6") "t1" (initial_state read_only_disk) in
  Set_has (Json (JStr "6.6.6.6")) (bannedIPs r.2) = true ∧
  fs_file (disk r.2) = None.
Proof.
  destruct (refused_write_keeps_ban (IStr "6.6.6.6") "t1"
              (initial_state read_only_disk))
    as (_ & Hx & Hfile & _); [reflexivity|reflexivity|].
  split; [exact Hx|exact Hfile].
Defined.

Lemma Set_has_delete_other (x y : jsval) (s : list jsval) :
  same_value_zero x y = false →
  Set_has y (Set_delete x s) = Set_has y s.
Proof.
  intros Hxy. unfold Set_has, Set_delete.
  induction s as [|z s IH]; [done|]. simpl.
  destruct (same_value_zero x z) eqn:Hxz; simpl; rewrite IH; [|done].
  destruct (same_value_zero y z) eqn:Hyz; [|done].
  apply same_value_zero_eq in Hyz as ->. congruence.
Qed.

(** X11. The unban route removes its target and nothing else: the banned
    status of every other value is as before, the reported [success] says
    whether the target was banned, and unbanning an address that is not
    banned changes nothing at all (no write either). *)
Theorem unban_only_removes_target (x iso : string) (st : state) :
  let r := admin_unban x iso st in
  (∃ b, r.1 = Return b ∧ success b = Set_has (Json (JStr x)) (bannedIPs st)) ∧
  Set_has (Json (JStr x)) (bannedIPs r.2) = false ∧
  (∀ y, same_value_zero (Json (JStr x)) y = false →
        Set_has y (bannedIPs r.2) = Set_has y (bannedIPs st)) ∧
  (Set_has (Json (JStr x)) (bannedIPs st) = false → r.2 = st).
Proof.
  intros r. subst r.
  destruct (Set_has (Json (JStr x)) (bannedIPs st)) eqn:Hhas.
  - destruct (admin_unban_present x iso st Hhas) as (Hret & _ & Hset & _).
    split; [by eexists|]. rewrite Hset.
    split; [apply Set_has_delete_same|]. split; [|done].
    intros y Hxy. by apply Set_has_delete_other.
  - rewrite (admin_unban_absent x iso st Hhas). simpl.
    split; [by eexists|]. by repeat split.
Qed.

(** X12. Loading reads the [ips] array and nothing else of the record:
    whatever the other properties of the object on file say, the ban set
    becomes the elements of the array in file order with repeats dropped, so
    it is never longer than the array; the tracker and the disk are not
    touched. *)
Theorem load_reads_ips_only (iso : string) (st : state)
    (props : list (string * json)) (l : list json) :
  fs_file (disk st) = Some (JsonText (JObj props)) →
  fs_readable (disk st) = true →
  assoc "ips" props = Some (JArr l) →
  let r := loadBannedIPs iso st in
  r.1 = Return tt ∧
  bannedIPs r.2 = Set_of_list (map Json l) ∧
  Set_wf (bannedIPs r.2) ∧
  (∀ x, Set_has x (bannedIPs r.2) = Set_has x (map Json l)) ∧
  (List.length (bannedIPs r.2) ≤ List.length l)%nat ∧
  requestTracker r.2 = requestTracker st ∧ disk r.2 = disk st.
Proof.
  intros Hfile Hread Hips r.
  destruct (loadBannedIPs_present iso st (JObj props) (Json (JArr l))
              (Set_of_list (map Json l)))
    as (Hret & Hset & Htr & Hdisk); [done|done|by simpl; rewrite Hips|done|].
  fold r in Hret, Hset, Htr, Hdisk. rewrite Hset.
  split; [done|]. split; [done|].
  split; [by apply (Set_of_list_from _ [])|].
  split; [intros x; apply Set_of_list_has|]. split; [|done].
  pose proof (Set_of_list_length (map Json l) []) as Hlen.
  simpl in Hlen. by rewrite List.length_map in Hlen.
Qed.

Lemma load_reads_ips_only_witness :
  bannedIPs
    (loadBannedIPs "t"
       (initial_state
          {| fs_file := Some (JsonText
                                (JObj [ ("totalBanned", JNum 7);
                                        ("ips", JArr [JStr "6.6.6.6";
                                                      JStr "7.7.7.7";
                                                      JStr "6.6.6.6"]) ]));
             fs_readable := true; fs_writable := true;
             fs_write_calls := 0 |})).2 =
  [Json (JStr "6.6.6.6"); Json (JStr "7.7.7.7")].
Proof.
  destruct (load_reads_ips_only "t"
              (initial_state
                 {| fs_file := Some (JsonText
                                       (JObj [ ("totalBanned", JNum 7);
                                               ("ips", JArr [JStr "6.6.6.6";
                                                             JStr "7.7.7.7";
                                                             JStr "6.6.6.6"]) ]));
                    fs_readable := true; fs_writable := true;
                    fs_write_calls := 0 |})
              [ ("totalBanned", JNum 7);
                ("ips", JArr [JStr "6.6.6.6"; JStr "7.7.7.7"; JStr "6.6.6.6"]) ]
              [JStr "6.6.6.6"; JStr "7.7.7.7"; JStr "6.6.6.6"])
    as (_ & Hset & _); [reflexivity|reflexivity|reflexivity|].
  rewrite Hset. reflexivity.
Defined.

(** ** The routes *)

Lemma handle_unfold (rt : route) (req : request) (now : Z) (iso iso' : string)
    (st : state) :
  handle rt req now iso iso' st =
    match admission req now iso st with
    | (Return SocketDestroyed, st1) => (Return NoResponse, st1)
    | (Return NextCalled, st1) =>
        match rt with
        | ApiStatus =>
            match api_status req st1 with
            | (Return b, st2) => (Return (StatusJson b), st2)
            | (Throw e, st2) => (Throw e, st2)
            end
        | AdminBanned =>
            match admin_banned st1 with
            | (Return b, st2) => (Return (BannedJson b), st2)
            | (Throw e, st2) => (Throw e, st2)
            end
        | AdminUnban ip =>
            match admin_unban ip iso' st1 with
            | (Return b, st2) => (Return (UnbanJson b), st2)
            | (Throw e, st2) => (Throw e, st2)
            end
        | Unmatched => (Return NotFound, st1)
        end
    | (Throw e, st1) => (Throw e, st1)
    end.
Proof.
  unfold handle, mbind, js_bind.
  destruct (admission req now iso st) as [[[]|e] st1]; [done| |done].
  by destruct rt.
Qed.

Lemma api_status_run (req : request) (st : state) (ip : ident) :
  getRealIP req = Return ip →
  api_status req st =
    (Return {| sb_ip := ip;
               sb_requests := match requestTracker st !! ip with
                              | Some t => count t
                              | None => 0
                              end;
               sb_limit := REQUEST_LIMIT;
               sb_remaining := match requestTracker st !! ip with
                               | Some t => Z.max 0 (REQUEST_LIMIT - count t)
                               | None => REQUEST_LIMIT
                               end;
               sb_banned := Set_has (ident_val ip) (bannedIPs st) |}, st).
Proof. intros Hip. unfold api_status. run_js. by rewrite Hip. Qed.

Lemma admission_next_keeps_bans (req : request) (now : Z) (iso : string)
    (st : state) :
  (admission req now iso st).1 = Return NextCalled →
  bannedIPs (admission req now iso st).2 = bannedIPs st.
Proof.
  destruct (admission_cases req now iso st) as (ip & Hip & Hcases).
  cbv zeta in *.
  destruct Hcases as [[Hhas ->]|[(Hhas & _ & ->)|[(Hhas & e & _ & _ & _ & _ & _ & Hset & _)
                     |(Hhas & e & _ & _ & _ & Hret & _)]]]; try done.
  rewrite Hret. discriminate.
Qed.

(** X13. What [/api/status] tells a client whose request got through. The
    route changes nothing, and (counts being in range before the request)
    its body reports the identity of the request as not banned, with a
    number of requests that counts this very request, lies between 1 and
    the limit, and adds up with [remaining] to the limit. A client whose
    socket was destroyed gets no body. *)
Theorem status_after_admission (req : request) (now : Z) (iso iso' : string)
    (st : state) :
  counts_ok st →
  let r := handle ApiStatus req now iso iso' st in
  let a := admission req now iso st in
  r.2 = a.2 ∧
  ((a.1 = Return SocketDestroyed ∧ r.1 = Return NoResponse) ∨
   (a.1 = Return NextCalled ∧
    ∃ b e, r.1 = Return (StatusJson b) ∧
           getRealIP req = Return (sb_ip b) ∧
           sb_banned b = false ∧
           requestTracker r.2 !! sb_ip b = Some e ∧
           sb_requests b = count e ∧
           (1 ≤ sb_requests b ≤ REQUEST_LIMIT)%Z ∧
           sb_requests b + sb_remaining b = sb_limit b ∧
           sb_limit b = REQUEST_LIMIT)).
Proof.
  intros Hok. cbv zeta. rewrite handle_unfold.
  destruct (admission_cases req now iso st) as (ip & Hip & Hcases).
  cbv zeta in Hcases. unfold REQUEST_LIMIT in *.
  destruct Hcases as [[Hhas ->]|[(Hhas & _ & ->)|[(Hhas & e & Hold & _ & Hle & Hret & Htr & Hset & _)
                     |(Hhas & e & _ & _ & _ & Hret & _)]]].
  - split; [done|]. by left.
  - rewrite (api_status_run req _ ip Hip). simpl. split; [done|]. right.
    split; [done|]. rewrite lookup_insert_eq, Hhas. do 2 eexists.
    split; [done|]. simpl. unfold REQUEST_LIMIT.
    repeat split; try done;
      first [apply lookup_insert_eq | simpl; lia].
  - destruct (admission req now iso st) as [o st1]. simpl in *. subst o.
    rewrite (api_status_run req st1 ip Hip). simpl. split; [done|]. right.
    split; [done|]. rewrite Htr, lookup_insert_eq, Hset, Hhas.
    destruct (Hok ip e Hold) as [Hrange _].
    do 2 eexists. split; [done|]. simpl. unfold REQUEST_LIMIT.
    repeat split; try done;
      first [apply lookup_insert_eq | simpl; lia].
  - destruct (admission req now iso st) as [o st1]. simpl in *. subst o.
    split; [done|]. by left.
Qed.

Lemma status_after_admission_witness :
  let r := handle ApiStatus (from_peer "10.0.0.7") 0 "t" "t"
                  (initial_state quiet_disk) in
  r.2 = (admission (from_peer "10.0.0.7") 0 "t" (initial_state quiet_disk)).2.
Proof.
  destruct (status_after_admission (from_peer "10.0.0.7") 0 "t" "t"
              (initial_state quiet_disk))
    as (Hsame & _).
  - intros ip e Hlook. simpl in Hlook. by rewrite lookup_empty in Hlook.
  - exact Hsame.
Defined.

(** X14. A banned client reaches no route: whatever it asks for, the admin
    routes included, it gets no response and the state is as before but for
    the console line. In particular it cannot unban itself. *)
Theorem banned_client_gets_nothing (rt : route) (req : request) (now : Z)
    (iso iso' : string) (st : state) (ip : ident) :
  getRealIP req = Return ip →
  Set_has (ident_val ip) (bannedIPs st) = true →
  let r := handle rt req now iso iso' st in
  r = (Return NoResponse, log (LogBlocked ip) st) ∧
  Set_has (ident_val ip) (bannedIPs r.2) = true.
Proof.
  intros Hip Hhas. cbv zeta. rewrite handle_unfold.
  by rewrite (admission_banned req now iso st ip Hip Hhas).
Qed.

Lemma banned_client_gets_nothing_witness :
  let r := handle (AdminUnban "6.6.6.6") (from_peer "6.6.6.6") 1000 "t" "t"
                  banned_with_entry in
  r.1 = Return NoResponse ∧
  Set_has (Json (JStr "6.6.6.6")) (bannedIPs r.2) = true.
Proof.
  destruct (banned_client_gets_nothing (AdminUnban "6.6.6.6")
              (from_peer "6.6.6.6") 1000 "t" "t" banned_with_entry
              (IStr "6.6.6.6"))
    as (Heq & Hban); [reflexivity|reflexivity|].
  split; [by rewrite Heq|exact Hban].
Defined.

(** X15. The unban route asks for no credentials: any client whose request
    gets through the middleware unbans the address it names. The body says
    whether the address was banned, the address is not banned afterwards,
    and the tracker is as the middleware left it. *)
Theorem any_admitted_client_can_unban (x : string) (req : request) (now : Z)
    (iso iso' : string) (st : state) :
  (admission req now iso st).1 = Return NextCalled →
  let r := handle (AdminUnban x) req now iso iso' st in
  (∃ b, r.1 = Return (UnbanJson b) ∧
        success b = Set_has (Json (JStr x)) (bannedIPs st)) ∧
  Set_has (Json (JStr x)) (bannedIPs r.2) = false ∧
  requestTracker r.2 = requestTracker (admission req now iso st).2.
Proof.
  intros Hnext. cbv zeta. rewrite handle_unfold.
  pose proof (admission_next_keeps_bans req now iso st Hnext) as Hset.
  destruct (admission req now iso st) as [o st1]. simpl in *. subst o.
  destruct (admin_unban_clears x iso' st1) as [Htr Hclear].
  destruct (Set_has (Json (JStr x)) (bannedIPs st1)) eqn:Hhas.
  - destruct (admin_unban_present x iso' st1 Hhas) as (Hret & _).
    destruct (admin_unban x iso' st1) as [o st2]. simpl in *. subst o.
    simpl. split; [eexists; split; [done|]|done]. simpl. by rewrite <- Hset.
  - rewrite (admin_unban_absent x iso' st1 Hhas) in *. simpl.
    split; [eexists; split; [done|]|done]. simpl. by rewrite <- Hset.
Qed.

Lemma any_admitted_client_can_unban_witness :
  Set_has (Json (JStr "6.6.6.6"))
    (bannedIPs
       (handle (AdminUnban "6.6.6.6") (from_peer "10.0.0.7") 1000 "t" "t"
               banned_with_entry).2) = false.
Proof.
  destruct (any_admitted_client_can_unban "6.6.6.6" (from_peer "10.0.0.7")
              1000 "t" "t" banned_with_entry)
    as (_ & Hclear & _); [reflexivity|].
  exact Hclear.
Defined.

(** X16. After an unban, a request of the address that arrives more than
    [TIME_WINDOW] after the start of its retained window (or finds no entry)
    is passed on and opens a window with count 1. *)
Theorem unbanned_client_returns_after_window (x iso iso' : string)
    (req : request) (now : Z) (st : state) :
  getRealIP req = Return (IStr x) →
  (requestTracker st !! IStr x = None ∨
   ∃ e, requestTracker st !! IStr x = Some e ∧
        TIME_WINDOW < now - firstRequest e) →
  let st1 := (admin_unban x iso st).2 in
  admission req now iso' st1 =
    (Return NextCalled, store_entry (IStr x) (opened now) st1).
Proof.
  intros Hip Hentry st1.
  destruct (admin_unban_clears x iso st) as [Htr Hclear].
  fold st1 in Htr, Hclear.
  destruct Hentry as [Hnone|(e & Hold & Hexp)].
  - apply admission_new; [done|done|by rewrite Htr].
  - apply (admission_expired req now iso' st1 (IStr x) e);
      [done|done|by rewrite Htr|done].
Qed.

Lemma unbanned_client_returns_after_window_witness :
  (admission (from_peer "6.6.6.6") 60001 "t2"
     (admin_unban "6.6.6.6" "t1" banned_with_entry).2).1 = Return NextCalled.
Proof.
  rewrite (unbanned_client_returns_after_window "6.6.6.6" "t1" "t2"
             (from_peer "6.6.6.6") 60001 banned_with_entry).
  - reflexivity.
  - reflexivity.
  - right. exists {| count := 51; firstRequest := 0; lastRequest := 900 |}.
    split; [reflexivity|by vm_compute].
Defined.

Lemma listed_iff_banned (x : string) (s : list jsval) :
  In (JStr x) (map json_of_element s) ↔ Set_has (Json (JStr x)) s = true.
Proof.
  unfold Set_has. rewrite in_map_iff, existsb_exists. split.
  - intros (v & Hv & Hin). exists v. split; [done|].
    destruct v as [|j]; simpl in Hv; [discriminate|]. subst j. simpl.
    apply String.eqb_refl.
  - intros (v & Hin & Hv). exists v. split; [|done].
    by apply same_value_zero_eq in Hv as <-.
Qed.

(** X17. [/admin/banned] changes nothing and lists the ban set faithfully:
    [totalBanned] is the number of entries listed, and an address string is
    listed exactly when it is banned. *)
Theorem banned_listing_faithful (st : state) :
  ∃ b, admin_banned st = (Return b, st) ∧
       bb_totalBanned b = List.length (bb_bannedIPs b) ∧
       bb_activeTracking b = size (requestTracker st) ∧
       ∀ x, In (JStr x) (bb_bannedIPs b) ↔
            Set_has (Json (JStr x)) (bannedIPs st) = true.
Proof.
  eexists. split; [reflexivity|]. simpl.
  split; [by rewrite List.length_map|]. split; [done|].
  intros x. apply listed_iff_banned.
Qed.

(** ** Headers against the peer address *)

Lemma admission_by_identity (req req' : request) (now : Z) (iso : string)
    (st : state) :
  getRealIP req = getRealIP req' →
  admission req now iso st = admission req' now iso st.
Proof. intros Heq. unfold admission. by rewrite Heq. Qed.

(** X18. Once a request carries an identity header that passes its test,
    the address of the socket plays no part: the request resolves to the
    same identity and is handled in exactly the same way whichever peer it
    comes from. *)
Theorem header_hides_peer (req : request) (a b : option string) (now : Z)
    (iso : string) (st : state) :
  has_identity_header req = true →
  getRealIP (with_peer a b req) = getRealIP req ∧
  admission (with_peer a b req) now iso st = admission req now iso st.
Proof.
  intros Hhdr.
  assert (getRealIP (with_peer a b req) = getRealIP req) as Heq.
  { unfold getRealIP, if_truthy, has_identity_header, with_peer in *.
    cbn [x_forwarded_for x_real_ip cf_connecting_ip socket_remoteAddress
         connection_remoteAddress].
    destruct (truthy_str (cf_connecting_ip req)) eqn:Hcf.
    { destruct (cf_connecting_ip req); [done|discriminate]. }
    destruct (truthy_str (x_real_ip req)) eqn:Hreal.
    { destruct (x_real_ip req); [done|discriminate]. }
    destruct (truthy_str (x_forwarded_for req)) eqn:Hfwd; [|discriminate].
    destruct (x_forwarded_for req); [done|discriminate]. }
  split; [done|]. by apply admission_by_identity.
Qed.

Lemma header_hides_peer_witness :
  (admission (with_peer (Some "6.6.6.6") (Some "6.6.6.6") both_headers)
     1000 "t" banned_with_entry).1 = Return NextCalled.
Proof.
  destruct (header_hides_peer both_headers (Some "6.6.6.6") (Some "6.6.6.6")
              1000 "t" banned_with_entry)
    as (_ & Heq); [reflexivity|].
  rewrite Heq. reflexivity.
Defined.

(** ** The ban set under every operation *)

Lemma handle_wf (rt : route) (req : request) (now : Z) (iso iso' : string)
    (st : state) :
  Set_wf (bannedIPs st) → Set_wf (bannedIPs (handle rt req now iso iso' st).2).
Proof.
  intros Hwf. rewrite handle_unfold.
  pose proof (admission_wf req now iso st Hwf) as Hwf1.
  destruct (admission req now iso st) as [[[]|e] st1]; simpl in *; try done.
  destruct rt as [| |x|]; try done.
  - destruct (getRealIP_returns req) as [ip Hip].
    by rewrite (api_status_run req st1 ip Hip).
  - pose proof (admin_unban_wf x iso' st1 Hwf1) as Hwf2.
    by destruct (admin_unban x iso' st1) as [[b|e] st2].
Qed.

(** X19. The ban set never holds a value twice: loading, banning, handling
    a request on any route (the unban route included) and the cleanup pass
    each turn a duplicate-free ban set into a duplicate-free ban set, and
    what a load leaves is duplicate-free whatever the file listed and
    whatever the set held before. *)
Theorem ban_set_stays_a_set (st : state) :
  Set_wf (bannedIPs st) →
  (∀ iso, Set_wf (bannedIPs (loadBannedIPs iso st).2)) ∧
  (∀ ip iso, Set_wf (bannedIPs (banIP ip iso st).2)) ∧
  (∀ rt req now iso iso',
     Set_wf (bannedIPs (handle rt req now iso iso' st).2)) ∧
  (∀ now, Set_wf (bannedIPs (cleanup now st).2)) ∧
  (∀ d iso, Set_wf (bannedIPs (startup d iso).2)).
Proof.
  intros Hwf. split; [intros iso; by apply loadBannedIPs_wf|].
  split; [intros ip iso; by apply banIP_wf|].
  split; [intros rt req now iso iso'; by apply handle_wf|].
  split.
  - intros now. by destruct (cleanup_run now st) as (_ & _ & -> & _).
  - intros d iso. by apply loadBannedIPs_wf.
Qed.

Lemma ban_set_stays_a_set_witness :
  Set_wf
    (bannedIPs
       (handle (AdminUnban "7.7.7.7") (from_peer "10.0.0.7") 1000 "t" "t"
               two_bans).2).
Proof.
  destruct (ban_set_stays_a_set two_bans) as (_ & _ & Hhandle & _).
  - simpl. repeat split; reflexivity.
  - apply Hhandle.
Defined.

(** ** Counts over the life of the process *)

Lemma admission_counts_positive (req : request) (now : Z) (iso : string)
    (st : state) :
  counts_positive st → counts_positive (admission req now iso st).2.
Proof.
  intros Hok. destruct (admission_cases req now iso st) as (ip & Hip & Hcases).
  cbv zeta in *. unfold counts_positive in *.
  destruct Hcases as [[Hhas ->]|[(Hhas & _ & ->)|[(Hhas & e & Hold & _ & _ & _ & Htr & _)
                     |(Hhas & e & Hold & _ & _ & _ & Htr & _)]]];
    simpl; intros ip' e'.
  - apply Hok.
  - destruct (decide (ip' = ip)) as [->|Hne].
    + rewrite lookup_insert_eq. by intros [= <-].
    + rewrite lookup_insert_ne by done. apply Hok.
  - rewrite Htr. destruct (decide (ip' = ip)) as [->|Hne].
    + rewrite lookup_insert_eq. intros [= <-]. simpl.
      pose proof (Hok ip e Hold). lia.
    + rewrite lookup_insert_ne by done. apply Hok.
  - rewrite Htr. destruct (decide (ip' = ip)) as [->|Hne].
    + rewrite lookup_insert_eq. intros [= <-]. simpl.
      pose proof (Hok ip e Hold). lia.
    + rewrite lookup_insert_ne by done. apply Hok.
Qed.

Lemma cleanup_counts_positive (now : Z) (st : state) :
  counts_positive st → counts_positive (cleanup now st).2.
Proof.
  intros Hok ip e. destruct (cleanup_run now st) as (_ & -> & _).
  rewrite sweep_lookup. destruct (requestTracker st !! ip) as [e0|] eqn:Hold;
    [|done].
  destruct ((now - lastRequest e0 >? STALE_AFTER)
            && negb (Set_has (ident_val ip) (bannedIPs st))); [done|].
  intros [= <-]. by apply (Hok ip).
Qed.

(** What a route adds to the middleware: nothing on the tracker, and
    nothing at all unless it is the unban route. *)
Lemma handle_after_admission (rt : route) (req : request) (now : Z)
    (iso iso' : string) (st : state) :
  (∃ resp, (handle rt req now iso iso' st).1 = Return resp) ∧
  requestTracker (handle rt req now iso iso' st).2 =
    requestTracker (admission req now iso st).2 ∧
  ((∀ x, rt ≠ AdminUnban x) →
   (handle rt req now iso iso' st).2 = (admission req now iso st).2).
Proof.
  rewrite handle_unfold.
  destruct (admission_returns req now iso st) as [d Hd].
  destruct (admission req now iso st) as [o st1]. simpl in Hd. subst o.
  destruct d; [simpl; split; [by eexists|done]|].
  destruct rt as [| |x|].
  - destruct (getRealIP_returns req) as [ip Hip].
    rewrite (api_status_run req st1 ip Hip). simpl. split; [by eexists|done].
  - simpl. split; [by eexists|done].
  - destruct (admin_unban_clears x iso' st1) as [Htr _].
    destruct (Set_has (Json (JStr x)) (bannedIPs st1)) eqn:Hhas.
    + destruct (admin_unban_present x iso' st1 Hhas) as (Hret & _).
      destruct (admin_unban x iso' st1) as [o st2]. simpl in *. subst o.
      simpl. split; [by eexists|]. split; [done|].
      intros Hne. by destruct (Hne x).
    + rewrite (admin_unban_absent x iso' st1 Hhas). simpl.
      split; [by eexists|done].
  - simpl. split; [by eexists|done].
Qed.

Lemma run_cons_arrive (rt : route) (a : arrival) (rest : list event)
    (st : state) :
  run (Arrive rt a :: rest) st =
    match handle rt (arr_req a) (arr_now a) (arr_iso a) (arr_iso a) st with
    | (Return _, st1) => run rest st1
    | (Throw e, st1) => (Throw e, st1)
    end.
Proof. reflexivity. Qed.

Lemma run_cons_tick (now : Z) (rest : list event) (st : state) :
  run (Tick now :: rest) st = run rest (cleanup now st).2.
Proof.
  destruct (cleanup_run now st) as (Hret & _).
  change (run (Tick now :: rest) st)
    with (match cleanup now st with
          | (Return _, st1) => run rest st1
          | (Throw e, st1) => (Throw e, st1)
          end).
  destruct (cleanup now st) as [o st1]. simpl in Hret. by subst o.
Qed.

(** X3. Whatever requests (each for any route, handled by the middleware
    and then the route) and timer ticks follow one another, the run never
    raises and every tracked count stays at least 1. When none of the
    requests is for the unban route, the counts also stay in range: no
    count is more than one past the limit, and a count past the limit
    belongs to a banned identity. *)
Theorem run_keeps_counts (events : list event) (st : state) :
  counts_positive st →
  let r := run events st in
  r.1 = Return tt ∧ counts_positive r.2 ∧
  (counts_ok st → no_unban events → counts_ok r.2).
Proof.
  revert st. induction events as [|[rt a|now] rest IH]; intros st Hpos.
  - simpl. split; [done|]. split; [done|]. by intros Hok _.
  - cbv zeta. rewrite run_cons_arrive.
    destruct (handle_after_admission rt (arr_req a) (arr_now a) (arr_iso a)
                (arr_iso a) st) as ([resp Hresp] & Htr & Hsame).
    pose proof (admission_counts_positive (arr_req a) (arr_now a) (arr_iso a)
                  st Hpos) as Hpos1.
    pose proof (admission_counts_ok (arr_req a) (arr_now a) (arr_iso a) st)
      as Hok1.
    destruct (handle rt (arr_req a) (arr_now a) (arr_iso a) (arr_iso a) st)
      as [o st1].
    simpl in Hresp, Htr, Hsame. subst o.
    assert (counts_positive st1) as Hpos2.
    { intros ip e. rewrite Htr. apply Hpos1. }
    destruct (IH st1 Hpos2) as (Hret & Hpos3 & Hok3).
    split; [done|]. split; [done|].
    intros Hok Hno. unfold no_unban in Hno. simpl in Hno.
    apply andb_prop in Hno as [Hrt Hno]. apply Hok3; [|done].
    rewrite Hsame; [by apply Hok1|].
    intros x ->. discriminate.
  - cbv zeta. rewrite run_cons_tick.
    destruct (IH (cleanup now st).2 (cleanup_counts_positive now st Hpos))
      as (Hret & Hpos3 & Hok3).
    split; [done|]. split; [done|].
    intros Hok Hno. apply Hok3; [by apply cleanup_counts_ok|].
    unfold no_unban in *. simpl in Hno. exact Hno.
Qed.

Lemma run_keeps_counts_witness :
  let r := run [Arrive ApiStatus (hit "10.0.0.7" 0);
                Arrive (AdminUnban "6.6.6.6") (hit "10.0.0.7" 10);
                Tick 400000;
                Arrive Unmatched (hit "10.0.0.7" 400001)]
               (initial_state quiet_disk) in
  r.1 = Return tt ∧ counts_positive r.2 ∧
  counts_ok (run [Arrive ApiStatus (hit "10.0.0.7" 0); Tick 400000]
                 (initial_state quiet_disk)).2.
Proof.
  destruct (run_keeps_counts
              [Arrive ApiStatus (hit "10.0.0.7" 0);
               Arrive (AdminUnban "6.6.6.6") (hit "10.0.0.7" 10);
               Tick 400000;
               Arrive Unmatched (hit "10.0.0.7" 400001)]
              (initial_state quiet_disk))
    as (Hret & Hpos & _).
  { intros ip e Hlook. simpl in Hlook. by rewrite lookup_empty in Hlook. }
  destruct (run_keeps_counts
              [Arrive ApiStatus (hit "10.0.0.7" 0); Tick 400000]
              (initial_state quiet_disk))
    as (_ & _ & Hok).
  { intros ip e Hlook. simpl in Hlook. by rewrite lookup_empty in Hlook. }
  split; [exact Hret|]. split; [exact Hpos|].
  apply Hok; [|reflexivity].
  intros ip e Hlook. simpl in Hlook. by rewrite lookup_empty in Hlook.
Defined.
